(** * euroxref: currency conversion over the ECB 90-day reference feed

    A shallow embedding of [euroxref.go] and the properties of its
    rounding, caching, day lookup and conversion code.

    Conventions of the embedding:
    - [float64] is Rocq's primitive binary64 [float]; [int] and [uint64]
      are [Z] with the wrap-around written out ([int] is 64 bits wide, as
      on the platforms the 2016 toolchain targeted by default);
    - Go strings are [string];
    - a Go result pair [(value, err)] is kept as a pair, the error being
      [option error], because the code returns its named results as they
      stand when it fails;
    - [time.Now] and [http.Get] are read from an explicit [World];
    - the library functions the code calls ([strconv.ParseFloat],
      [math.Pow], [math.Copysign], [time.Time.Format], [time.Parse],
      [time.Time.Sub], [time.Duration.Seconds]) are modelled after their
      documented behaviour, each where it is first used. *)

From Stdlib Require Import ZArith String Ascii List Bool Lia Floats.
From stdpp Require Import gmap.
Import ListNotations.

#[local] Set Warnings "-inexact-float".
#[local] Open Scope Z_scope.

(* ===================================================================== *)
(** * Machine numbers *)
(* ===================================================================== *)

Module Num.

(** [int(x)] for an unsigned 64-bit [x], and [uint64]'s range. *)
Definition two63 : Z := 2 ^ 63.
Definition two64 : Z := 2 ^ 64.

Definition wrap_int (n : Z) : Z := (n + two63) mod two64 - two63.
Definition wrap_uint64 (n : Z) : Z := n mod two64.

(** [float64(n)] for an integer [n]: the nearest binary64, ties to even. *)
Definition float_of_Z (n : Z) : float :=
  SF2Prim (binary_normalize prec emax n 0 false).

(** The integer part of a float (the fraction discarded), when it has
    one: NaN and the infinities have none. *)
Definition trunc (f : float) : option Z :=
  match Prim2SF f with
  | S754_zero _ => Some 0
  | S754_finite s m e =>
      let a := match e with
               | Zneg p => Z.shiftr (Zpos m) (Zpos p)
               | _ => Z.shiftl (Zpos m) e
               end in
      Some (if s then - a else a)
  | S754_infinity _ | S754_nan => None
  end.

(** Go leaves the result of converting a float to an integer type that
    cannot represent its integer part to the implementation.  The
    embedding takes that choice as a parameter. *)
Class Platform := { uint64_unrepresentable : float -> Z }.

(** [uint64(f)]. *)
Definition uint64_of_float `{Platform} (f : float) : Z :=
  match trunc f with
  | Some n =>
      if (0 <=? n) && (n <? two64) then n
      else wrap_uint64 (uint64_unrepresentable f)
  | None => wrap_uint64 (uint64_unrepresentable f)
  end.

(** [int(f)], used only where the value is in range. *)
Definition int_of_float (f : float) : Z :=
  match trunc f with
  | Some n => wrap_int n
  | None => - two63
  end.

(** The gc compiler on amd64: below [2^63] the conversion goes through
    the signed truncating instruction (whose out-of-range answer is
    [-2^63]) and reinterprets the bits; from [2^63] on it converts
    [f - 2^63] the same way and sets the top bit. *)
Definition cvttsd2sq (f : float) : Z :=
  match trunc f with
  | Some n => if (- two63 <=? n) && (n <? two63) then n else - two63
  | None => - two63
  end.

Definition amd64_uint64 (f : float) : Z :=
  if PrimFloat.ltb f (float_of_Z two63)
  then wrap_uint64 (cvttsd2sq f)
  else Z.lor (wrap_uint64 (cvttsd2sq (f - float_of_Z two63))) two63.

Definition amd64 : Platform := {| uint64_unrepresentable := amd64_uint64 |}.

(** A saturating conversion (arm64's): NaN and negatives give [0],
    values past the range give the largest [uint64]. *)
Definition saturating_uint64 (f : float) : Z :=
  match Prim2SF f with
  | S754_nan => 0
  | S754_infinity true | S754_finite true _ _ | S754_zero _ => 0
  | S754_infinity false | S754_finite false _ _ => two64 - 1
  end.

Definition arm64 : Platform :=
  {| uint64_unrepresentable := saturating_uint64 |}.

(** [math.Copysign(x, y)]: [x] with the sign of [y]. *)
Definition math_Copysign (x y : float) : float :=
  if PrimFloat.get_sign y then (- PrimFloat.abs x)%float else PrimFloat.abs x.

(** [math.Pow(10, float64(p))] for an [int] [p], as the library computes
    it: [10 = 0.625 * 2^4] is raised to the integer [yi = |float64(p)|]
    by squaring, the mantissa [a1] in binary64 and the exponent [ae] in
    integers, and the two are put together by [math.Ldexp] (an exact
    scaling, or an infinity past the range).  The loop gives up once the
    exponent of the square leaves [-4096, 4096]. *)
Fixpoint pow_loop (fuel : nat) (i : Z) (a1 : float) (ae : Z) (x1 : float) (xe : Z)
    : float * Z :=
match fuel with
| O => (a1, ae)
| S k =>
    if i =? 0 then (a1, ae)
    else if (xe <? -4096) || (4096 <? xe) then (a1, ae + xe)
    else
      let '(a1, ae) :=
        if Z.odd i then ((a1 * x1)%float, ae + xe) else (a1, ae) in
      let x1 := (x1 * x1)%float in
      let xe := 2 * xe in
      let '(x1, xe) :=
        if PrimFloat.ltb x1 0.5 then ((x1 + x1)%float, xe - 1) else (x1, xe) in
      pow_loop k (Z.shiftr i 1) a1 ae x1 xe
end.

Definition math_Pow10 (p : Z) : float :=
let y := float_of_Z p in
if p =? 0 then 1%float
else if PrimFloat.eqb y 1 then 10%float
else
  match trunc (PrimFloat.abs y) with
  | None => nan
  | Some yi =>
      if two63 <=? yi then (if 0 <? p then infinity else 0%float)
      else
        let '(a1, ae) := pow_loop 64 yi 1 0 0.625 4 in
        let '(a1, ae) :=
          if PrimFloat.ltb y 0 then ((1 / a1)%float, - ae) else (a1, ae) in
        Z.ldexp a1 ae
  end.

End Num.
Export Num.

(* ===================================================================== *)
(** * Rounding *)
(* ===================================================================== *)

Section Rounding.
Context `{Platform}.

(** [roundFloat] rounds the float into nearest integer. *)
Definition roundFloat (num : float) : Z :=
  let roundBarrier := 0.5%float in
  uint64_of_float (num + math_Copysign roundBarrier num)%float.

(** [FloatToFixed] rounds floating number based on precision of
    computation. *)
Definition FloatToFixed (num : float) (prec : Z) : float :=
  let prec := if prec <? 1 then 1 else prec in
  let exp := math_Pow10 prec in
  (float_of_Z (roundFloat (num * exp)%float) / exp)%float.

End Rounding.

(* ===================================================================== *)
(** * [strconv.ParseFloat] *)
(* ===================================================================== *)

(** The library's contract: a decimal or hexadecimal floating-point
    literal (optional sign, digits with at most one point and with
    underscores between them, an exponent that the hexadecimal form
    requires) or one of the spellings of the infinities and NaN; the
    result is the value of the requested width nearest to the literal,
    ties to even, returned as a [float64]; a literal that rounds past
    the largest finite value is a range error. *)
Module strconv.

Inductive NumError := ErrSyntax | ErrRange.

Definition is_digit (c : ascii) : bool :=
  let n := Z.of_N (N_of_ascii c) in (48 <=? n) && (n <=? 57).

Definition digit_val (c : ascii) : Z := Z.of_N (N_of_ascii c) - 48.

(** [lower(c)]: the byte with its case bit set. *)
Definition lower (c : ascii) : Z := Z.lor (Z.of_N (N_of_ascii c)) 32.

Definition is_hex_letter (c : ascii) : bool := (97 <=? lower c) && (lower c <=? 102).

Definition hex_letter_val (c : ascii) : Z := lower c - 97 + 10.

(** The length of the longest prefix that [s] and the lower-case
    [prefix] share, the case of [s] set aside. *)
Fixpoint commonPrefixLenIgnoreCase (s prefix : string) : nat :=
  match s, prefix with
  | String c s', String p prefix' =>
      let n := N_of_ascii c in
      let c := if ((65 <=? n) && (n <=? 90))%N then ascii_of_N (n + 32) else c in
      if Ascii.eqb c p then S (commonPrefixLenIgnoreCase s' prefix') else O
  | _, _ => O
  end.

(** An infinity at the head of [s], with the number of bytes it takes. *)
Definition infinity_prefix (sign : bool) (nsign : nat) (s : string)
    : option (spec_float * nat) :=
  let n := commonPrefixLenIgnoreCase s "infinity" in
  let n := if (3 <? n)%nat && (n <? 8)%nat then 3%nat else n in
  if (n =? 3)%nat || (n =? 8)%nat then Some (S754_infinity sign, (nsign + n)%nat)
  else None.

(** [special]: the infinities and NaN, by the first byte of [s]. *)
Definition special (s : string) : option (spec_float * nat) :=
  match s with
  | EmptyString => None
  | String c rest =>
      if Ascii.eqb c "+" then infinity_prefix false 1 rest
      else if Ascii.eqb c "-" then infinity_prefix true 1 rest
      else if Ascii.eqb c "i" || Ascii.eqb c "I" then infinity_prefix false 0 s
      else if Ascii.eqb c "n" || Ascii.eqb c "N" then
        if (commonPrefixLenIgnoreCase s "nan" =? 3)%nat then Some (S754_nan, 3%nat)
        else None
      else None
  end.

(** What [readFloat] has seen of the mantissa: the digits after the
    leading zeros ([mant], [nd] of them) and the position [dp] of the
    point relative to the first of them. *)
Record mantissa := mkMantissa {
  sawdot : bool; sawdigits : bool; underscores : bool;
  nd : Z; dp : Z; mant : Z }.

(** The digits loop, in base 10 or 16; it stops in front of the first
    byte it cannot take, a second point included. *)
Fixpoint read_digits (hex : bool) (s : string) (a : mantissa) : mantissa * string :=
  match s with
  | EmptyString => (a, s)
  | String c r =>
      if Ascii.eqb c "_" then
        read_digits hex r
          (mkMantissa (sawdot a) (sawdigits a) true (nd a) (dp a) (mant a))
      else if Ascii.eqb c "." then
        if sawdot a then (a, s)
        else read_digits hex r
               (mkMantissa true (sawdigits a) (underscores a) (nd a) (nd a) (mant a))
      else if is_digit c then
        if Ascii.eqb c "0" && (nd a =? 0) then
          read_digits hex r
            (mkMantissa (sawdot a) true (underscores a) (nd a) (dp a - 1) (mant a))
        else
          read_digits hex r
            (mkMantissa (sawdot a) true (underscores a) (nd a + 1) (dp a)
                        (mant a * (if hex then 16 else 10) + digit_val c))
      else if hex && is_hex_letter c then
        read_digits hex r
          (mkMantissa (sawdot a) true (underscores a) (nd a + 1) (dp a)
                      (mant a * 16 + hex_letter_val c))
      else (a, s)
  end.

(** The exponent's digits; the accumulator stops growing at 10000. *)
Fixpoint read_exp (s : string) (e : Z) (under : bool) : Z * bool * string :=
  match s with
  | String c r =>
      if is_digit c
      then read_exp r (if e <? 10000 then e * 10 + digit_val c else e) under
      else if Ascii.eqb c "_" then read_exp r e true
      else (e, under, s)
  | EmptyString => (e, under, s)
  end.

(** [underscoreOK]: underscores only between digits, or between the
    base prefix and a digit. *)
Inductive seen := AtStart | Digit | Underscore | Other.

Fixpoint underscore_run (hex : bool) (s : string) (saw : seen) : bool :=
  match s with
  | EmptyString => match saw with Underscore => false | _ => true end
  | String c r =>
      if is_digit c || (hex && is_hex_letter c) then underscore_run hex r Digit
      else if Ascii.eqb c "_" then
        match saw with
        | Digit => underscore_run hex r Underscore
        | _ => false
        end
      else
        match saw with
        | Underscore => false
        | _ => underscore_run hex r Other
        end
  end.

Definition underscoreOK (s : string) : bool :=
  let s := match s with
           | String c r => if Ascii.eqb c "-" || Ascii.eqb c "+" then r else s
           | EmptyString => s
           end in
  match s with
  | String c0 (String c1 r) =>
      if Ascii.eqb c0 "0"
         && ((lower c1 =? 98) || (lower c1 =? 111) || (lower c1 =? 120))
      then underscore_run (lower c1 =? 120) r Digit
      else underscore_run false s AtStart
  | _ => underscore_run false s AtStart
  end.

(** A literal read: its value is [(-1)^neg * dmant * b^dexp], with
    [b = 2] for a hexadecimal literal and [b = 10] for a decimal one;
    [ddp] is the position of the point relative to the first digit that
    is not a leading zero. *)
Record decimal := mkDecimal {
  neg : bool; dhex : bool; dmant : Z; ddp : Z; dexp : Z }.

(** The first [n] bytes of [s]. *)
Definition prefix (n : nat) (s : string) : string := String.substring 0 n s.

(** The base prefix [0x] in front of at least one more byte. *)
Definition base_prefix (s : string) : bool * string :=
  match s with
  | String d0 (String d1 (String d2 r)) =>
      if Ascii.eqb d0 "0" && (lower d1 =? 120) then (true, String d2 r)
      else (false, s)
  | _ => (false, s)
  end.

(** [readFloat] behind the sign: [s] is the whole string, [s1] what
    follows the sign. *)
Definition read_unsigned (s : string) (sign : bool) (s1 : string)
    : option (decimal * string) :=
  let '(hex, s2) := base_prefix s1 in
  let '(a, s3) := read_digits hex s2 (mkMantissa false false false 0 0 0) in
  if negb (sawdigits a) then None
  else
    let dp0 := if sawdot a then dp a else nd a in
    let '(dp0, nd0) := if hex then (dp0 * 4, nd a * 4) else (dp0, nd a) in
    let finish (dp1 : Z) (under : bool) (rest : string) :=
      if under
         && negb (underscoreOK (prefix (String.length s - String.length rest) s))
      then None
      else Some (mkDecimal sign hex (mant a) dp1 (dp1 - nd0), rest) in
    match s3 with
    | String c3 s4 =>
        if lower c3 =? (if hex then 112 else 101) then
          match s4 with
          | EmptyString => None
          | String c4 r4 =>
              let '(esign, s5) :=
                if Ascii.eqb c4 "+" then (1, r4)
                else if Ascii.eqb c4 "-" then (-1, r4) else (1, s4) in
              match s5 with
              | String c5 _ =>
                  if is_digit c5 then
                    let '(e, under, rest) := read_exp s5 0 (underscores a) in
                    finish (dp0 + e * esign) under rest
                  else None
              | EmptyString => None
              end
          end
        else if hex then None
        else finish dp0 (underscores a) s3
    | EmptyString => if hex then None else finish dp0 (underscores a) s3
    end.

(** [readFloat]: the literal at the head of [s] and what follows it. *)
Definition readFloat (s : string) : option (decimal * string) :=
  match s with
  | EmptyString => None
  | String c0 r0 =>
      if Ascii.eqb c0 "+" then read_unsigned s false r0
      else if Ascii.eqb c0 "-" then read_unsigned s true r0
      else read_unsigned s false s
  end.

(** ** Rounding to a binary format *)

(** [g / d] rounded to the nearest integer, a half to the even one. *)
Definition round_even (g d : Z) : Z :=
  let q := g / d in
  let r := g mod d in
  if 2 * r <? d then q
  else if d <? 2 * r then q + 1
  else if Z.even q then q else q + 1.

(** The value of the format of precision [p] and exponent bound [emx]
    nearest to [n / d], ties to even, and an infinity past the largest.
    Counted in units of [2^emin], the least the format has, [n / d] has
    the integer part [g / d]; the format keeps [p] binary digits, so the
    last [s] digits of that integer part are rounded away: [n / d] is
    rounded in units of [2^(emin + s)]. *)
Definition nearest (p emx : Z) (sign : bool) (n d : Z) : spec_float :=
  let emin := SpecFloat.emin p emx in
  let g := Z.shiftl n (- emin) in
  let s := Z.max 0 (Zdigits2 (g / d) - p) in
  if emx - p <? emin + s then S754_infinity sign
  else
    let m := round_even g (Z.shiftl d s) in
    let '(m, e) :=
      if m =? 2 ^ p then (2 ^ (p - 1), emin + s + 1) else (m, emin + s) in
    match m with
    | Zpos m => if e <=? emx - p then S754_finite sign m e else S754_infinity sign
    | _ => S754_zero sign
    end.

(** The literal [d] rounded to the format of precision [p] and exponent
    bound [emx].  A decimal literal whose point lies more than 310
    places to the right or 330 to the left is past every format. *)
Definition round_decimal (p emx : Z) (d : decimal) : spec_float :=
  if dmant d =? 0 then S754_zero (neg d)
  else if dhex d then
    if 0 <=? dexp d then nearest p emx (neg d) (Z.shiftl (dmant d) (dexp d)) 1
    else nearest p emx (neg d) (dmant d) (Z.shiftl 1 (- dexp d))
  else if 310 <? ddp d then S754_infinity (neg d)
  else if ddp d <? -330 then S754_zero (neg d)
  else if 0 <=? dexp d then nearest p emx (neg d) (dmant d * 10 ^ dexp d) 1
  else nearest p emx (neg d) (dmant d) (10 ^ (- dexp d)).

(** Precision and exponent bound of the two widths. *)
Definition format (bitSize : Z) : Z * Z :=
  if bitSize =? 32 then (24, 128) else (53, 1024).

(** [ParseFloat(s, bitSize)]: the value (as a [float64]) and the error. *)
Definition ParseFloat (s : string) (bitSize : Z) : float * option NumError :=
  match special s with
  | Some (v, n) =>
      if (n =? String.length s)%nat then (SF2Prim v, None)
      else (0%float, Some ErrSyntax)
  | None =>
      match readFloat s with
      | Some (d, EmptyString) =>
          let '(p, emx) := format bitSize in
          let v := round_decimal p emx d in
          match v with
          | S754_infinity _ => (SF2Prim v, Some ErrRange)
          | _ => (SF2Prim v, None)
          end
      | _ => (0%float, Some ErrSyntax)
      end
  end.

End strconv.

(* ===================================================================== *)
(** * [time] *)
(* ===================================================================== *)

(** A [time.Time] is an instant in UTC, counted in nanoseconds from the
    zero value of the type (January 1 of year 1, 00:00:00); a
    [time.Duration] is a signed 64-bit count of nanoseconds. *)
Module time.

Definition Time := Z.
Definition Duration := Z.

Definition zero : Time := 0.

Definition Second : Duration := 1000000000.
Definition nsPerDay : Z := 86400 * Second.
Definition minDuration : Duration := - two63.
Definition maxDuration : Duration := two63 - 1.

(** [t.Sub(u)]: the difference, or the nearest duration there is. *)
Definition Sub (t u : Time) : Duration :=
  Z.max minDuration (Z.min maxDuration (t - u)).

(** [d.Seconds()]. *)
Definition Seconds (d : Duration) : float :=
  let sec := Z.quot d Second in
  let nsec := Z.rem d Second in
  (float_of_Z sec + float_of_Z nsec / float_of_Z Second)%float.

(** ** The calendar *)

Definition isLeap (year : Z) : bool :=
  (year mod 4 =? 0) && (negb (year mod 100 =? 0) || (year mod 400 =? 0)).

Definition daysIn (month year : Z) : Z :=
  if month =? 2 then (if isLeap year then 29 else 28)
  else if (month =? 4) || (month =? 6) || (month =? 9) || (month =? 11)
       then 30 else 31.

(** Days from the zero instant to January 1 of [year]. *)
Definition daysBeforeYear (year : Z) : Z :=
  let y := year - 1 in
  365 * y + y / 4 - y / 100 + y / 400.

Fixpoint daysBeforeMonth (months : nat) (year : Z) : Z :=
  match months with
  | O => 0
  | S k => daysBeforeMonth k year + daysIn (Z.of_nat (S k)) year
  end.

(** [time.Date(year, month, day, hour, min, sec, nsec, time.UTC)] for
    fields in their ranges. *)
Definition Date (year month day hour min sec nsec : Z) : Time :=
  (daysBeforeYear year + daysBeforeMonth (Z.to_nat (month - 1)) year + (day - 1))
    * nsPerDay
  + ((hour * 60 + min) * 60 + sec) * Second + nsec.

(** The year of the day [d] days after the zero instant, and the day of
    that year (from 0), by 400-, 100-, 4- and 1-year cycles. *)
Definition yearOfDay (d : Z) : Z * Z :=
  let n400 := d / 146097 in
  let d := d - 146097 * n400 in
  let n100 := d / 36524 in
  let n100 := n100 - Z.shiftr n100 2 in
  let d := d - 36524 * n100 in
  let n4 := d / 1461 in
  let d := d - 1461 * n4 in
  let n1 := d / 365 in
  let n1 := n1 - Z.shiftr n1 2 in
  let d := d - 365 * n1 in
  (400 * n400 + 100 * n100 + 4 * n4 + n1 + 1, d).

(** The month holding day [yday] of [year], and the day of that month. *)
Fixpoint monthOfDay (fuel : nat) (month yday year : Z) : Z * Z :=
  match fuel with
  | O => (month, yday + 1)
  | S k =>
      if yday <? daysIn month year then (month, yday + 1)
      else monthOfDay k (month + 1) (yday - daysIn month year) year
  end.

(** [t.Date()]: year, month and day of [t]. *)
Definition civil (t : Time) : Z * Z * Z :=
  let '(year, yday) := yearOfDay (t / nsPerDay) in
  let '(month, day) := monthOfDay 11 1 yday year in
  (year, month, day).

(** ** Formatting and parsing with the layout ["2006-01-02"] *)

Definition digit (n : Z) : ascii := ascii_of_N (Z.to_N (48 + n mod 10)).

Fixpoint digits (fuel : nat) (n : Z) (acc : string) : string :=
  match fuel with
  | O => acc
  | S k =>
      let acc := String (digit n) acc in
      if n / 10 =? 0 then acc else digits k (n / 10) acc
  end.

Fixpoint zeros (k : nat) (s : string) : string :=
  match k with O => s | S k => String "0" (zeros k s) end.

(** [appendInt]: [x] in decimal, padded with zeros to [width] digits,
    after the sign. *)
Definition appendInt (x : Z) (width : nat) : string :=
  let u := Z.abs x in
  let ds := digits (S (Z.to_nat (Z.log2 u))) u "" in
  let padded := zeros (width - String.length ds) ds in
  if x <? 0 then String "-" padded else padded.

(** [t.Format("2006-01-02")]. *)
Definition Format (t : Time) : string :=
  let '(year, month, day) := civil t in
  (appendInt year 4 ++ "-" ++ appendInt month 2 ++ "-" ++ appendInt day 2)%string.

Definition num2 (a b : ascii) : option Z :=
  if strconv.is_digit a && strconv.is_digit b
  then Some (strconv.digit_val a * 10 + strconv.digit_val b) else None.

(** [time.Parse("2006-01-02", value)]: four digits, two and two, the
    month and the day within their ranges; [None] is the parse error
    (the time returned with it is the zero value). *)
Definition Parse (value : string) : option Time :=
  match value with
  | String y1 (String y2 (String y3 (String y4 (String "-"
      (String m1 (String m2 (String "-" (String d1 (String d2 EmptyString))))))))) =>
      match num2 y1 y2, num2 y3 y4, num2 m1 m2, num2 d1 d2 with
      | Some yh, Some yl, Some month, Some day =>
          let year := yh * 100 + yl in
          if (1 <=? month) && (month <=? 12)
             && (1 <=? day) && (day <=? daysIn month year)
          then Some (Date year month day 0 0 0 0) else None
      | _, _, _, _ => None
      end
  | _ => None
  end.

End time.

(* ===================================================================== *)
(** * Data model *)
(* ===================================================================== *)

#[local] Open Scope string_scope.
#[local] Open Scope Z_scope.

(** [EUCurr] is identifier for Euro currency, [EURate] its exchange rate,
    [XRefDateLayout] the feed's date format (fixed in [time.Format] and
    [time.Parse] above). *)
Definition EUCurr : string := "EUR".
Definition EURate : float := 1.0%float.

(** [RawExchangeRate]: single currency record of the feed. *)
Record RawExchangeRate := mkRawExchangeRate {
  RawCurrency : string;
  RawRate : string }.

(** [XRefRawData]: record for single day containing rate data. *)
Record XRefRawData := mkXRefRawData {
  RateTime : string;
  Rates : list RawExchangeRate }.

(** [XRefRawResponse]: exchange rate data retrieved from the bank (the
    element name [XMLName] plays no part in the code). *)
Record XRefRawResponse := mkXRefRawResponse {
  Data : list XRefRawData }.

(** [ExchangeRate]: parsed [RawExchangeRate]. *)
Record ExchangeRate := mkExchangeRate {
  Currency : string;
  Rate : float }.

Definition ExchangeRates := list ExchangeRate.

(** The errors the package builds, and the text each one carries. *)
Inductive cause := Transport (msg : string) | Decode (msg : string).

Inductive error :=
| FetchFailed (why : cause)
| MalformedRate (currency rate : string)
| InvalidAmount
| UnknownCurrency (source target : string) (available : list string) (date : string)
| DateNotFound (timeKey : string)
| BadDate (value : string).

Definition Error (e : error) : string :=
  match e with
  | FetchFailed (Transport msg) | FetchFailed (Decode msg) => msg
  | MalformedRate currency rate =>
      "Invalid input rate value for " ++ currency ++ ", " ++ rate
  | InvalidAmount => "Amount of conversion currency can't be negative"
  | UnknownCurrency source target available date =>
      "Invalid currencies selected: " ++ source ++ ", " ++ target
      ++ ". List of available currency rates: " ++ String.concat ", " available
      ++ " for " ++ date
  | DateNotFound timeKey =>
      "Currency data for " ++ timeKey
      ++ " doesn't exist. Records are only available for past 90 days, excluding present day."
  | BadDate value => "parsing time " ++ value
  end.

(** A call returns its results, the error among them, or panics (on the
    nil feed pointer). *)
Inductive outcome (A : Type) :=
| Returns (result : A) (err : option error)
| Panics.
Arguments Returns {A} result err.
Arguments Panics {A}.

(** [Client]: all data required for interaction with euroxref.  The feed
    pointer is [None] until the first download; [HTTPClient] is left out,
    [fetchXML] goes through [http.Get]. *)
Record Client := mkClient {
  XRefData : option XRefRawResponse;
  RefreshInterval : Z;
  prec : Z;
  lastFetched : time.Time }.

(** [New(precision, refreshInterval)], both unsigned. *)
Definition New (precision refreshInterval : Z) : Client :=
  {| XRefData := None;
     RefreshInterval := wrap_int refreshInterval;
     prec := wrap_int precision;
     lastFetched := time.zero |}.

(** ** The world outside *)

(** What one [http.Get] of the feed followed by the XML decoding gives:
    a transport error, or the decoded document together with the
    decoder's error, if any. *)
Inductive Response :=
| GetError (msg : string)
| GetBody (data : XRefRawResponse) (decodeErr : option string).

(** The successive readings of the clock and answers of the server. *)
Record World := mkWorld {
  clock : nat -> time.Time;
  server : nat -> Response }.

(** A client in its world: how many clock readings and requests have
    been made so far. *)
Record State := mkState {
  client : Client;
  ticks : nat;
  requests : nat }.

Definition start (c : Client) : State :=
  {| client := c; ticks := 0; requests := 0 |}.

(* ===================================================================== *)
(** * The client *)
(* ===================================================================== *)

(** [ExchangeRates.Map]: collection into a map by currency. *)
Definition Map (e : ExchangeRates) : gmap string float :=
  fold_left (fun res v => <[Currency v := Rate v]> res) e ∅.

(** [newExchangeRate] returns new populated exchangeRate instance (the
    rate returned with an error is the nil interface, hence the sum). *)
Definition newExchangeRate (r : RawExchangeRate) : error + ExchangeRate :=
  match strconv.ParseFloat (RawRate r) 32 with
  | (_, Some _) => inl (MalformedRate (RawCurrency r) (RawRate r))
  | (v, None) => inr {| Currency := RawCurrency r; Rate := v |}
  end.

(** [fetchXML] retrieves xml containing currency data and parses it. *)
Definition fetchXML (w : World) (s : State) : State * option error :=
  let c := client s in
  let now := clock w (ticks s) in
  let s := {| client := c; ticks := S (ticks s); requests := requests s |} in
  if (int_of_float (time.Seconds (time.Sub now (lastFetched c))) <? RefreshInterval c)
     && (RefreshInterval c >? 0)
  then (s, None)
  else
    let resp := server w (requests s) in
    let s := {| client := c; ticks := ticks s; requests := S (requests s) |} in
    match resp with
    | GetError msg => (s, Some (FetchFailed (Transport msg)))
    | GetBody data decodeErr =>
        ({| client := {| XRefData := Some data;
                         RefreshInterval := RefreshInterval c;
                         prec := prec c;
                         lastFetched := clock w (ticks s) |};
            ticks := S (ticks s);
            requests := requests s |},
         option_map (fun msg => FetchFailed (Decode msg)) decodeErr)
    end.

Section Client.
Context `{Platform}.

(** [ExchangeRate.Round] rounds the rate based on precision given. *)
Definition Round (e : ExchangeRate) (prec : Z) : ExchangeRate :=
  {| Currency := Currency e; Rate := FloatToFixed (Rate e) prec |}.

(** [round] rounds the value based on precision set during client
    initialization or precision passed as optional arg. *)
Definition round (c : Client) (num : float) (params : list Z) : float :=
  match params with
  | prec :: _ => FloatToFixed num prec
  | [] => FloatToFixed num (prec c)
  end.

(** [computeExchangeValue] returns computed value of exchange rate
    between 2 currencies and passed value. *)
Definition computeExchangeValue (c : Client) (amount : float)
    (in_ to : ExchangeRate) : float * option error :=
  if PrimFloat.ltb amount 0 then (0%float, Some InvalidAmount)
  else if String.eqb (Currency in_) (Currency to) then (round c amount [], None)
  else (round c (round c amount [2] * round c (Rate to / Rate in_) []) [], None).

(** The day's records, parsed and rounded one after the other; the
    first malformed one stops the loop with what was gathered. *)
Fixpoint parseRates (prec : Z) (dayData : list RawExchangeRate)
    (rates : ExchangeRates) : ExchangeRates * option error :=
  match dayData with
  | [] => (rates, None)
  | rec :: rest =>
      match newExchangeRate rec with
      | inl err => (rates, Some err)
      | inr val => parseRates prec rest (rates ++ [Round val prec])%list
      end
  end.

(** The rate list of the first day stamped [timeKey], empty when there
    is none. *)
Fixpoint findDay (days : list XRefRawData) (timeKey : string)
    : list RawExchangeRate :=
  match days with
  | [] => []
  | dayD :: rest =>
      if String.eqb (RateTime dayD) timeKey then Rates dayD
      else findDay rest timeKey
  end.

(** [Fetch] retrieves collection of exchangeRate values for given day. *)
Definition Fetch (w : World) (s : State) (t : time.Time)
    : State * outcome ExchangeRates :=
  let timeKey := time.Format t in
  let '(s, err) := fetchXML w s in
  match err with
  | Some e => (s, Returns [] (Some e))
  | None =>
      match XRefData (client s) with
      | None => (s, Panics)
      | Some feed =>
          let dayData := findDay (Data feed) timeKey in
          if Z.of_nat (List.length dayData) =? 0
          then (s, Returns [] (Some (DateNotFound timeKey)))
          else
            let '(rates, err) := parseRates (prec (client s)) dayData [] in
            (s, Returns rates err)
      end
  end.

(** The two legs after the scan of the day's list: the last record of
    each code wins. *)
Definition scanLegs (source target : string) (dayData : ExchangeRates)
    : option ExchangeRate * option ExchangeRate :=
  fold_left
    (fun '(in_, to) rec =>
       (if String.eqb source (Currency rec) then Some rec else in_,
        if String.eqb target (Currency rec) then Some rec else to))
    dayData (None, None).

(** EUR doesn't show up on currency lists but is supported. *)
Definition withEuro (source target : string)
    (legs : option ExchangeRate * option ExchangeRate)
    : option ExchangeRate * option ExchangeRate :=
  let '(in_, to) := legs in
  if String.eqb source EUCurr || String.eqb target EUCurr then
    let euRec := {| Currency := EUCurr; Rate := EURate |} in
    (if String.eqb source EUCurr then Some euRec else in_,
     if String.eqb target EUCurr then Some euRec else to)
  else (in_, to).

(** [Convert] is main method for computing exchange rates between
    currencies. *)
Definition Convert (w : World) (s : State) (amount : float)
    (source target : string) (t : time.Time) : State * outcome float :=
  let '(s, r) := Fetch w s t in
  match r with
  | Panics => (s, Panics)
  | Returns _ (Some e) => (s, Returns 0%float (Some e))
  | Returns dayData None =>
      match withEuro source target (scanLegs source target dayData) with
      | (Some in_, Some to) =>
          let '(result, err) := computeExchangeValue (client s) amount in_ to in
          (s, Returns result err)
      | _ =>
          (s, Returns 0%float
                (Some (UnknownCurrency source target (map Currency dayData)
                                       (time.Format t))))
      end
  end.

(** The loop of [FetchAll] over the days of the feed it started from;
    each day is looked up again through [Fetch]. *)
Fixpoint collectDays (w : World) (s : State) (days : list XRefRawData)
    (rates : gmap Z ExchangeRates) : State * outcome (gmap Z ExchangeRates) :=
  match days with
  | [] => (s, Returns rates None)
  | dayD :: rest =>
      match time.Parse (RateTime dayD) with
      | None => (s, Returns rates (Some (BadDate (RateTime dayD))))
      | Some t =>
          let '(s, r) := Fetch w s t in
          match r with
          | Panics => (s, Panics)
          | Returns _ (Some e) => (s, Returns rates (Some e))
          | Returns d None => collectDays w s rest (<[t := d]> rates)
          end
      end
  end.

(** [FetchAll] retrieves all available exchangeRate records. *)
Definition FetchAll (w : World) (s : State)
    : State * outcome (gmap Z ExchangeRates) :=
  let '(s, err) := fetchXML w s in
  match err with
  | Some e => (s, Returns ∅ (Some e))
  | None =>
      match XRefData (client s) with
      | None => (s, Panics)
      | Some feed => collectDays w s (Data feed) ∅
      end
  end.

End Client.

(* ===================================================================== *)
(** * The specification's rounding, and the feeds of the test suite *)
(* ===================================================================== *)

(** Rounding as the specification words it, to compare [FloatToFixed]
    with: the precision raised to at least 1, the scaled value rounded
    to the nearest integer with halves going away from zero, and the
    integer scaled back. *)
Module Spec.

(** The integer nearest to a finite [f], halves away from zero. *)
Definition round_half_away (f : float) : option Z :=
  match Prim2SF f with
  | S754_zero _ => Some 0
  | S754_finite s m e =>
      let a := match e with
               | Zneg k => (2 * Zpos m + 2 ^ Zpos k) / 2 ^ (Zpos k + 1)
               | _ => Z.shiftl (Zpos m) e
               end in
      Some (if s then - a else a)
  | S754_infinity _ | S754_nan => None
  end.

Definition toFixed (value : float) (precision : Z) : option float :=
  let exp := math_Pow10 (Z.max 1 precision) in
  option_map (fun n => (float_of_Z n / exp)%float)
             (round_half_away (value * exp)%float).

End Spec.

(** Rounding to a binary format as the standard words it: the values
    of the format of precision [p] and exponent bound [emx] are the
    [m * 2^e] with [m] below [2^p] and [e] from [emin] to [emx - p]; the
    nearest one to [n / d] is a value of the format that no other is
    nearer to, the one of even mantissa when two are as near; what lies
    half a unit or more past the largest goes to an infinity. *)
Module Binary.

Definition representable (p emx m e : Z) : Prop :=
  0 <= m < 2 ^ p /\ SpecFloat.emin p emx <= e <= emx - p.

(** The distance from [n / d] to [m * 2^e], in units of [2^emin / d]. *)
Definition gap (p emx n d m e : Z) : Z :=
  Z.abs (n * 2 ^ (- SpecFloat.emin p emx)
         - m * 2 ^ (e - SpecFloat.emin p emx) * d).

(** Twice the distance from zero to the middle between the largest value
    and [2^emx], in the same units. *)
Definition overflow_gap (p emx d : Z) : Z :=
  (2 ^ (p + 1) - 1) * 2 ^ (emx - p - SpecFloat.emin p emx) * d.

Definition nearest_even (p emx n d : Z) (v : spec_float) : Prop :=
  match v with
  | S754_zero _ => 2 * (n * 2 ^ (- SpecFloat.emin p emx)) <= d
  | S754_finite _ m e =>
      representable p emx (Zpos m) e /\
      2 * (n * 2 ^ (- SpecFloat.emin p emx)) < overflow_gap p emx d /\
      forall mw ew : Z,
        representable p emx mw ew ->
        gap p emx n d (Zpos m) e <= gap p emx n d mw ew /\
        (gap p emx n d (Zpos m) e = gap p emx n d mw ew ->
         mw * 2 ^ (ew - SpecFloat.emin p emx)
         <> Zpos m * 2 ^ (e - SpecFloat.emin p emx) ->
         Z.even (Zpos m) = true)
  | S754_infinity _ => overflow_gap p emx d <= 2 * (n * 2 ^ (- SpecFloat.emin p emx))
  | S754_nan => False
  end.

Definition sign_of (v : spec_float) : option bool :=
  match v with
  | S754_zero s | S754_infinity s | S754_finite s _ _ => Some s
  | S754_nan => None
  end.

End Binary.

(** Decimal literals as one writes them: an optional sign, the digits
    before the point, optionally the point and the digits after it,
    optionally an exponent; and the number each one stands for, as a
    fraction of two integers. *)
Module Literal.

Inductive digit := D0 | D1 | D2 | D3 | D4 | D5 | D6 | D7 | D8 | D9.

Definition digit_value (d : digit) : Z :=
  match d with
  | D0 => 0 | D1 => 1 | D2 => 2 | D3 => 3 | D4 => 4
  | D5 => 5 | D6 => 6 | D7 => 7 | D8 => 8 | D9 => 9
  end.

Definition digit_char (d : digit) : ascii :=
  match d with
  | D0 => "0" | D1 => "1" | D2 => "2" | D3 => "3" | D4 => "4"
  | D5 => "5" | D6 => "6" | D7 => "7" | D8 => "8" | D9 => "9"
  end%char.

Fixpoint digits_string (ds : list digit) : string :=
  match ds with
  | [] => EmptyString
  | d :: r => String (digit_char d) (digits_string r)
  end.

(** The number that the digits [ds] write behind the digits of [acc]. *)
Definition number_from (acc : Z) (ds : list digit) : Z :=
  fold_left (fun a d => 10 * a + digit_value d) ds acc.

Definition number (ds : list digit) : Z := number_from 0 ds.

(** A sign: none, [+] or [-]. *)
Definition sign_string (s : option bool) : string :=
  match s with
  | None => ""
  | Some false => "+"
  | Some true => "-"
  end.

Definition sign_value (s : option bool) : Z :=
  match s with Some true => -1 | _ => 1 end.

Record exponent := mkExponent {
  upper : bool;            (* [E] for [e] *)
  esign : option bool;
  edigits : list digit }.

Record literal := mkLiteral {
  lsign : option bool;
  int_part : list digit;
  frac_part : option (list digit);
  exp_part : option exponent }.

Definition fraction_string (f : option (list digit)) : string :=
  match f with
  | None => ""
  | Some f => String "." (digits_string f)
  end.

Definition exponent_string (e : option exponent) : string :=
  match e with
  | None => ""
  | Some e =>
      String (if upper e then "E" else "e")%char
             (sign_string (esign e) ++ digits_string (edigits e))
  end.

Definition unsigned (l : literal) : string :=
  digits_string (int_part l)
  ++ fraction_string (frac_part l) ++ exponent_string (exp_part l).

Definition render (l : literal) : string :=
  sign_string (lsign l) ++ unsigned l.

Definition fraction (l : literal) : list digit :=
  match frac_part l with None => [] | Some f => f end.

Definition exponent_value (e : option exponent) : Z :=
  match e with
  | None => 0
  | Some e => sign_value (esign e) * number (edigits e)
  end.

(** At least one digit in the mantissa and in an exponent; the
    exponent is below 10000. *)
Definition well_formed (l : literal) : bool :=
  (0 <? length (int_part l ++ fraction l)%list)%nat
  && match exp_part l with
     | None => true
     | Some e => (0 <? length (edigits e))%nat && (number (edigits e) <? 10000)
     end.

Definition negative (l : literal) : bool :=
  match lsign l with Some true => true | _ => false end.

(** The literal stands for [digits * 10^scale]. *)
Definition scale (l : literal) : Z :=
  exponent_value (exp_part l) - Z.of_nat (length (fraction l)).

Definition numerator (l : literal) : Z :=
  let n := number (int_part l ++ fraction l)%list in
  if 0 <=? scale l then n * 10 ^ scale l else n.

Definition denominator (l : literal) : Z :=
  if 0 <=? scale l then 1 else 10 ^ (- scale l).

End Literal.

(** The digits that count, of a mantissa under way: none and the value
    zero, or [nd] of them, the first not a zero. *)
Definition significant (a : strconv.mantissa) : Prop :=
  0 <= strconv.nd a /\
  (strconv.nd a = 0 -> strconv.mant a = 0) /\
  (0 < strconv.nd a ->
   10 ^ (strconv.nd a - 1) <= strconv.mant a < 10 ^ strconv.nd a).

(** The feed served by the package's tests, and the scenario feed of the
    specification. *)
Module Fixture.

Definition testResponse : XRefRawResponse :=
  {| Data :=
      [ {| RateTime := "2016-11-11";
           Rates := [ {| RawCurrency := "USD"; RawRate := "1.002" |};
                      {| RawCurrency := "CHF"; RawRate := "1.03" |};
                      {| RawCurrency := "PLN"; RawRate := "0.321" |};
                      {| RawCurrency := "XYZ"; RawRate := "1.9999999" |} ] |};
        {| RateTime := "2016-11-10";
           Rates := [ {| RawCurrency := "USD"; RawRate := "1.003123142" |};
                      {| RawCurrency := "PLN"; RawRate := "0.3211231231" |};
                      {| RawCurrency := "XYZ"; RawRate := "2.00001999" |} ] |};
        {| RateTime := "2016-11-09";
           Rates := [ {| RawCurrency := "USD"; RawRate := "2.999999" |} ] |};
        {| RateTime := "2016-11-08"; Rates := [] |} ] |}.

Definition scenarioFeed : XRefRawResponse :=
  {| Data :=
      [ {| RateTime := "2016-11-11";
           Rates := [ {| RawCurrency := "USD"; RawRate := "1.002" |};
                      {| RawCurrency := "CHF"; RawRate := "1.03" |} ] |} ] |}.

(** Noon of November 12th, 2016, one nanosecond later at each reading. *)
Definition noon (n : nat) : time.Time :=
  time.Date 2016 11 12 12 0 0 (Z.of_nat n).

(** A server that always answers with [feed]. *)
Definition serving (feed : XRefRawResponse) : World :=
  {| clock := noon; server := fun _ => GetBody feed None |}.

(** A server whose answers cannot be decoded: the decoder leaves an
    empty document and reports [msg]. *)
Definition garbled (msg : string) : World :=
  {| clock := noon; server := fun _ => GetBody {| Data := [] |} (Some msg) |}.

(** The days the tests ask for, at 23:00. *)
Definition november (day : Z) : time.Time := time.Date 2016 11 day 23 0 0 0.

(** A client that holds [feed], downloaded at [at_]. *)
Definition holding (feed : XRefRawResponse) (at_ : time.Time)
    (precision refreshInterval : Z) : State :=
  start {| XRefData := Some feed;
           RefreshInterval := refreshInterval;
           prec := precision;
           lastFetched := at_ |}.

End Fixture.

(* ===================================================================== *)
(** * Names for the parts of the code the statements speak of *)
(* ===================================================================== *)

(** The synthetic record of the reference currency. *)
Definition euRec : ExchangeRate := {| Currency := EUCurr; Rate := EURate |}.

(** One leg of the scan on its own: the last record carrying [code]. *)
Definition lastOf (code : string) (dayData : ExchangeRates)
    (found : option ExchangeRate) : option ExchangeRate :=
fold_left (fun leg rec => if String.eqb code (Currency rec) then Some rec else leg)
          dayData found.

(** The whole seconds the code counts between the last download and
    [now]. *)
Definition elapsedSeconds (c : Client) (now : time.Time) : Z :=
int_of_float (time.Seconds (time.Sub now (lastFetched c))).

(** The longest span a [time.Duration] holds, in whole seconds. *)
Definition longestSpan : Z := 9223372036.

(** The freshness test of [fetchXML]. *)
Definition fresh (c : Client) (now : time.Time) : bool :=
(int_of_float (time.Seconds (time.Sub now (lastFetched c))) <? RefreshInterval c)
&& (RefreshInterval c >? 0).

(** A float that is not below zero, read off its sign: a zero, a finite
    value or an infinity without the sign bit, or NaN. *)
Definition unsigned_sf (v : spec_float) : Prop :=
match v with
| S754_zero s | S754_infinity s | S754_finite s _ _ => s = false
| S754_nan => True
end.

(** The kinds of error each operation can end with. *)
Definition FetchError (e : error) : Prop :=
match e with
| FetchFailed _ | DateNotFound _ | MalformedRate _ _ => True
| InvalidAmount | UnknownCurrency _ _ _ _ | BadDate _ => False
end.

Definition ConvertError (e : error) : Prop :=
match e with
| BadDate _ => False
| _ => True
end.

Definition FetchAllError (e : error) : Prop :=
match e with
| InvalidAmount | UnknownCurrency _ _ _ _ => False
| _ => True
end.

Section Resolved.
Context `{Platform}.

(** One record of the feed as [Fetch] hands it out: parsed at 32 bits,
    then rounded to the precision. *)
Definition resolved (precision : Z) (r : RawExchangeRate) : ExchangeRate :=
{| Currency := RawCurrency r;
   Rate := FloatToFixed (fst (strconv.ParseFloat (RawRate r) 32)) precision |}.

End Resolved.

(** A record of the feed whose rate string parses at 32 bits. *)
Definition wellFormed (r : RawExchangeRate) : Prop :=
snd (strconv.ParseFloat (RawRate r) 32) = None.

Section PerDay.
Context `{Platform}.

(** The resolution of one day inside the loop of [FetchAll]: the stamp
    parsed, then the day fetched. *)
Definition resolveDay (w : World) (s : State) (dayD : XRefRawData)
    : State * outcome ExchangeRates :=
match time.Parse (RateTime dayD) with
| None => (s, Returns [] (Some (BadDate (RateTime dayD))))
| Some t => Fetch w s t
end.

End PerDay.

(* ===================================================================== *)
(** * Rounding: properties *)
(* ===================================================================== *)

(** An amount that is at least zero is not below zero (NaN is neither). *)
Lemma nonneg_not_negative (a : float) :
  PrimFloat.leb 0 a = true -> PrimFloat.ltb a 0 = false.
Proof.
  rewrite leb_spec, ltb_spec.
  change (Prim2SF 0) with (S754_zero false).
  destruct (Prim2SF a) as [s|s| |s m e]; cbn; try easy; destruct s; easy.
Qed.

Section RoundingFacts.
Context `{Platform}.

Lemma FloatToFixed_floor (x : float) (p : Z) :
  FloatToFixed x p = FloatToFixed x (Z.max 1 p).
Proof.
  unfold FloatToFixed.
  destruct (Z.ltb_spec p 1) as [Hp|Hp].
  - rewrite Z.max_l by lia. reflexivity.
  - rewrite Z.max_r by lia.
    destruct (Z.ltb_spec p 1); [lia | reflexivity].
Qed.

Lemma FloatToFixed_below_one (x : float) (p : Z) :
  p < 1 -> FloatToFixed x p = FloatToFixed x 1.
Proof.
  intros Hp. rewrite FloatToFixed_floor, Z.max_l by lia. reflexivity.
Qed.

End RoundingFacts.

(** X4: a precision below 1 acts as precision 1, for every value and
    whatever the conversion to [uint64] does outside its range. *)
Theorem FloatToFixed_precision_floor `{Platform} (x : float) (p : Z) :
  p < 1 -> FloatToFixed x p = FloatToFixed x 1.
Proof.
  intros Hp. rewrite FloatToFixed_floor, Z.max_l by lia. reflexivity.
Qed.

Lemma FloatToFixed_precision_floor_witness :
  @FloatToFixed amd64 0.4251 0 = @FloatToFixed amd64 0.4251 1 /\
  @FloatToFixed arm64 (-3.7) (-2) = @FloatToFixed arm64 (-3.7) 1.
Proof.
  split.
  - apply (@FloatToFixed_precision_floor amd64 0.4251 0). lia.
  - apply (@FloatToFixed_precision_floor arm64 (-3.7) (-2)). lia.
Defined.

(** C4: [FloatToFixed] is not rounding half away from zero.
    [roundFloat], which is to round to the nearest integer, adds one
    half carrying the sign and converts the sum to [uint64].  The sum of
    0.49999999999999994 and one half is 1 in binary64, so the largest
    value below one half goes to 1, and 0.049999999999999996 to 0.1 at
    precision 1.  And the unsigned conversion, next to the [Copysign]
    that prepares for negative values, has no negative result: -1 at
    precision 1 comes back as 1844674407370955161.6 on amd64 and as 0 on
    arm64, and -1.26 as 1844674407370955161.6 and 0; a value that
    reaches 2^64 once scaled, 10^20, comes back as 922337203685477580.8
    on amd64 and 1844674407370955161.5 on arm64. *)
Theorem FloatToFixed_is_not_round_half_away :
  Spec.round_half_away 0.49999999999999994 = Some 0 /\
  @roundFloat amd64 0.49999999999999994 = 1 /\
  @roundFloat arm64 0.49999999999999994 = 1 /\
  (0.049999999999999996 * math_Pow10 1)%float = 0.49999999999999994%float /\
  Spec.toFixed 0.049999999999999996 1 = Some 0%float /\
  @FloatToFixed amd64 0.049999999999999996 1 = 0.1%float /\
  @FloatToFixed arm64 0.049999999999999996 1 = 0.1%float /\
  Spec.round_half_away (-10) = Some (-10) /\
  @roundFloat amd64 (-10) = 18446744073709551606 /\
  @roundFloat arm64 (-10) = 0 /\
  Spec.toFixed (-1) 1 = Some (-1)%float /\
  @FloatToFixed amd64 (-1) 1 = 1844674407370955161.6%float /\
  @FloatToFixed arm64 (-1) 1 = 0%float /\
  Spec.toFixed (-1.26) 1 = Some (-1.3)%float /\
  @FloatToFixed amd64 (-1.26) 1 = 1844674407370955161.6%float /\
  @FloatToFixed arm64 (-1.26) 1 = 0%float /\
  Spec.toFixed 1e20 1 = Some 1e20%float /\
  @FloatToFixed amd64 1e20 1 = 922337203685477580.8%float /\
  @FloatToFixed arm64 1e20 1 = 1844674407370955161.5%float.
Proof. vm_compute. repeat split; reflexivity. Qed.


(* ===================================================================== *)
(** * Resolution of the two legs *)
(* ===================================================================== *)

Lemma scanLegs_from (source target : string) (dayData : ExchangeRates)
    (in_ to : option ExchangeRate) :
  fold_left
    (fun '(in_, to) rec =>
       (if String.eqb source (Currency rec) then Some rec else in_,
        if String.eqb target (Currency rec) then Some rec else to))
    dayData (in_, to)
  = (lastOf source dayData in_, lastOf target dayData to).
Proof.
  revert in_ to.
  induction dayData as [|rec rest IH]; intros in_ to; [reflexivity|].
  cbn [fold_left]. rewrite IH. reflexivity.
Qed.

Lemma scanLegs_lastOf (source target : string) (dayData : ExchangeRates) :
  scanLegs source target dayData
  = (lastOf source dayData None, lastOf target dayData None).
Proof. apply scanLegs_from. Qed.

Lemma lastOf_code (code : string) (dayData : ExchangeRates)
    (found : option ExchangeRate) (rec : ExchangeRate) :
  (forall r, found = Some r -> Currency r = code) ->
  lastOf code dayData found = Some rec -> Currency rec = code.
Proof.
  unfold lastOf. revert found.
  induction dayData as [|r rest IH]; intros found Hfound Hlast;
    cbn [fold_left] in Hlast.
  - auto.
  - apply IH in Hlast; [exact Hlast|].
    intros r0 Hr0.
    destruct (String.eqb_spec code (Currency r)) as [Heq|Hne].
    + injection Hr0 as <-. symmetry. exact Heq.
    + apply Hfound. exact Hr0.
Qed.

Lemma lastOf_found (code : string) (dayData : ExchangeRates)
    (found : option ExchangeRate) :
  found <> None \/ In code (map Currency dayData) ->
  lastOf code dayData found <> None.
Proof.
  unfold lastOf. revert found.
  induction dayData as [|r rest IH]; intros found Hyp; cbn [fold_left map].
  - destruct Hyp as [Hf|[]]. exact Hf.
  - apply IH. cbn [map In] in Hyp.
    destruct (String.eqb_spec code (Currency r)) as [Heq|Hne].
    + left. discriminate.
    + destruct Hyp as [Hf|[Hhd|Htl]]; [left; exact Hf | congruence | right; exact Htl].
Qed.

Lemma withEuro_source (target : string)
    (legs : option ExchangeRate * option ExchangeRate) :
  fst (withEuro EUCurr target legs) = Some euRec.
Proof. destruct legs as [in_ to]. reflexivity. Qed.

Lemma withEuro_target (source : string)
    (legs : option ExchangeRate * option ExchangeRate) :
  snd (withEuro source EUCurr legs) = Some euRec.
Proof.
  destruct legs as [in_ to]. unfold withEuro.
  rewrite String.eqb_refl, orb_true_r. reflexivity.
Qed.

Lemma withEuro_other (source target : string)
    (legs : option ExchangeRate * option ExchangeRate) :
  source <> EUCurr -> target <> EUCurr -> withEuro source target legs = legs.
Proof.
  intros Hs Ht. destruct legs as [in_ to]. unfold withEuro.
  apply String.eqb_neq in Hs, Ht. rewrite Hs, Ht. reflexivity.
Qed.

(** Both legs of an identity conversion are one and the same record. *)
Lemma same_code_same_leg (code : string) (dayData : ExchangeRates) :
  code = EUCurr \/ In code (map Currency dayData) ->
  exists rec, withEuro code code (scanLegs code code dayData) = (Some rec, Some rec).
Proof.
  intros Hcode. rewrite scanLegs_lastOf.
  destruct (String.eqb_spec code EUCurr) as [->|Hne].
  - exists euRec. reflexivity.
  - rewrite withEuro_other by assumption.
    destruct Hcode as [Heu|Hin]; [contradiction|].
    destruct (lastOf code dayData None) as [rec|] eqn:Hlast.
    + exists rec. reflexivity.
    + exfalso. apply (lastOf_found code dayData None); auto.
Qed.

(* ===================================================================== *)
(** * Conversion arithmetic *)
(* ===================================================================== *)

Section ConversionFacts.
Context `{Platform}.

Lemma computeExchangeValue_negative (c : Client) (amount : float)
    (in_ to : ExchangeRate) :
  PrimFloat.ltb amount 0 = true ->
  computeExchangeValue c amount in_ to = (0%float, Some InvalidAmount).
Proof. intros Hneg. unfold computeExchangeValue. rewrite Hneg. reflexivity. Qed.

Lemma computeExchangeValue_same (c : Client) (amount : float)
    (rec : ExchangeRate) :
  PrimFloat.ltb amount 0 = false ->
  computeExchangeValue c amount rec rec = (FloatToFixed amount (prec c), None).
Proof.
  intros Hpos. unfold computeExchangeValue.
  rewrite Hpos, String.eqb_refl. reflexivity.
Qed.

Lemma computeExchangeValue_cross (c : Client) (amount : float)
    (in_ to : ExchangeRate) :
  PrimFloat.ltb amount 0 = false ->
  Currency in_ <> Currency to ->
  computeExchangeValue c amount in_ to
  = (FloatToFixed (FloatToFixed amount 2 * FloatToFixed (Rate to / Rate in_) (prec c))
                  (prec c), None).
Proof.
  intros Hpos Hne. unfold computeExchangeValue.
  apply String.eqb_neq in Hne. rewrite Hpos, Hne. reflexivity.
Qed.

(** [Fetch] moves the state exactly as its [fetchXML] does. *)
Lemma Fetch_state (w : World) (s : State) (t : time.Time) :
  fst (Fetch w s t) = fst (fetchXML w s).
Proof.
  unfold Fetch. destruct (fetchXML w s) as [s1 [e|]]; [reflexivity|].
  destruct (XRefData (client s1)) as [feed|]; [|reflexivity].
  destruct (Z.of_nat (length (findDay (Data feed) (time.Format t))) =? 0);
    [reflexivity|].
  destruct (parseRates _ _ _). reflexivity.
Qed.

Lemma Convert_state (w : World) (s : State) (amount : float)
    (source target : string) (t : time.Time) :
  fst (Convert w s amount source target t) = fst (Fetch w s t).
Proof.
  unfold Convert. destruct (Fetch w s t) as [s1 [dayData [e|]|]]; try reflexivity.
  destruct (withEuro _ _ _) as [[in_|] [to|]]; try reflexivity.
  destruct (computeExchangeValue _ _ _ _). reflexivity.
Qed.

End ConversionFacts.

(** [fetchXML] case by case. *)
Lemma fetchXML_cases (w : World) (s : State) :
  fetchXML w s =
  if fresh (client s) (clock w (ticks s))
  then ({| client := client s; ticks := S (ticks s); requests := requests s |}, None)
  else match server w (requests s) with
       | GetError msg =>
           ({| client := client s; ticks := S (ticks s);
               requests := S (requests s) |},
            Some (FetchFailed (Transport msg)))
       | GetBody data decodeErr =>
           ({| client := {| XRefData := Some data;
                            RefreshInterval := RefreshInterval (client s);
                            prec := prec (client s);
                            lastFetched := clock w (S (ticks s)) |};
               ticks := S (S (ticks s));
               requests := S (requests s) |},
            option_map (fun msg => FetchFailed (Decode msg)) decodeErr)
       end.
Proof. reflexivity. Qed.

Lemma fetchXML_settings (w : World) (s : State) :
  prec (client (fst (fetchXML w s))) = prec (client s) /\
  RefreshInterval (client (fst (fetchXML w s))) = RefreshInterval (client s).
Proof.
  rewrite fetchXML_cases.
  destruct (fresh _ _); [split; reflexivity|].
  destruct (server w (requests s)); split; reflexivity.
Qed.

(* ===================================================================== *)
(** * [Convert] *)
(* ===================================================================== *)

Section ConvertFacts.
Context `{Platform}.

(** [Convert], once the day's list is in hand. *)
Lemma Convert_after_Fetch (w : World) (s s1 : State) (amount : float)
    (source target : string) (t : time.Time) (dayData : ExchangeRates) :
  Fetch w s t = (s1, Returns dayData None) ->
  Convert w s amount source target t =
  match withEuro source target (scanLegs source target dayData) with
  | (Some in_, Some to) =>
      (s1, Returns (fst (computeExchangeValue (client s1) amount in_ to))
                   (snd (computeExchangeValue (client s1) amount in_ to)))
  | _ => (s1, Returns 0%float
                (Some (UnknownCurrency source target (map Currency dayData)
                                       (time.Format t))))
  end.
Proof.
  intros HFetch. unfold Convert. rewrite HFetch.
  destruct (withEuro _ _ _) as [[in_|] [to|]]; try reflexivity.
  destruct (computeExchangeValue _ _ _ _). reflexivity.
Qed.

Lemma Convert_Fetch_failed (w : World) (s s1 : State) (amount : float)
    (source target : string) (t : time.Time) (dayData : ExchangeRates)
    (e : error) :
  Fetch w s t = (s1, Returns dayData (Some e)) ->
  Convert w s amount source target t = (s1, Returns 0%float (Some e)).
Proof. intros HFetch. unfold Convert. rewrite HFetch. reflexivity. Qed.

Lemma Fetch_prec (w : World) (s s1 : State) (t : time.Time)
    (r : outcome ExchangeRates) :
  Fetch w s t = (s1, r) -> prec (client s1) = prec (client s).
Proof.
  intros HFetch.
  assert (Hs : s1 = fst (fetchXML w s))
    by (rewrite <- (Fetch_state w s t), HFetch; reflexivity).
  rewrite Hs. apply fetchXML_settings.
Qed.

End ConvertFacts.

(** C7: a conversion from or into EUR is computed with the record of
    currency EUR and rate exactly 1.0 in the place of that leg, whatever
    the day and whatever its list holds (an EUR record of the list, if
    there were one, plays no part): with the day's list in hand and
    [rec] the record the list gives for the other code, [Convert]
    returns what [computeExchangeValue] makes of that record and [rec];
    for an amount that is at least zero that is the amount rounded to 2
    digits times [Rate rec / 1.0], resp. [1.0 / Rate rec], rounded to
    the client's precision, the product rounded again; and from EUR
    into EUR it is the amount rounded. *)
Theorem Convert_euro_leg `{Platform} (w : World) (s s1 : State) (amount : float)
    (other : string) (t : time.Time) (dayData : ExchangeRates)
    (rec : ExchangeRate) :
  Fetch w s t = (s1, Returns dayData None) ->
  other <> EUCurr ->
  lastOf other dayData None = Some rec ->
  fst (withEuro EUCurr other (scanLegs EUCurr other dayData))
  = Some {| Currency := "EUR"; Rate := 1.0 |} /\
  snd (withEuro other EUCurr (scanLegs other EUCurr dayData))
  = Some {| Currency := "EUR"; Rate := 1.0 |} /\
  Convert w s amount EUCurr other t
  = (s1, Returns
           (fst (computeExchangeValue (client s1) amount
                   {| Currency := "EUR"; Rate := 1.0 |} rec))
           (snd (computeExchangeValue (client s1) amount
                   {| Currency := "EUR"; Rate := 1.0 |} rec))) /\
  Convert w s amount other EUCurr t
  = (s1, Returns
           (fst (computeExchangeValue (client s1) amount rec
                   {| Currency := "EUR"; Rate := 1.0 |}))
           (snd (computeExchangeValue (client s1) amount rec
                   {| Currency := "EUR"; Rate := 1.0 |}))) /\
  (PrimFloat.leb 0 amount = true ->
   Convert w s amount EUCurr other t
   = (s1, Returns
            (FloatToFixed
               (FloatToFixed amount 2
                * FloatToFixed (Rate rec / 1.0) (prec (client s)))
               (prec (client s))) None) /\
   Convert w s amount other EUCurr t
   = (s1, Returns
            (FloatToFixed
               (FloatToFixed amount 2
                * FloatToFixed (1.0 / Rate rec) (prec (client s)))
               (prec (client s))) None) /\
   Convert w s amount EUCurr EUCurr t
   = (s1, Returns (FloatToFixed amount (prec (client s))) None)).
Proof.
  intros HFetch Hother Hrec.
  pose proof (lastOf_code other dayData None rec ltac:(discriminate) Hrec) as Hcode.
  assert (Hfrom : withEuro EUCurr other (scanLegs EUCurr other dayData)
                  = (Some euRec, Some rec)).
  { rewrite scanLegs_lastOf, Hrec. unfold withEuro.
    apply String.eqb_neq in Hother. rewrite Hother. reflexivity. }
  assert (Hinto : withEuro other EUCurr (scanLegs other EUCurr dayData)
                  = (Some rec, Some euRec)).
  { rewrite scanLegs_lastOf, Hrec. unfold withEuro.
    apply String.eqb_neq in Hother. rewrite Hother. reflexivity. }
  assert (Hboth : withEuro EUCurr EUCurr (scanLegs EUCurr EUCurr dayData)
                  = (Some euRec, Some euRec)).
  { destruct (scanLegs EUCurr EUCurr dayData). reflexivity. }
  split; [apply withEuro_source|]. split; [apply withEuro_target|].
  split; [|split].
  - rewrite (Convert_after_Fetch _ _ _ _ _ _ _ _ HFetch), Hfrom. reflexivity.
  - rewrite (Convert_after_Fetch _ _ _ _ _ _ _ _ HFetch), Hinto. reflexivity.
  - intros Hamount. apply nonneg_not_negative in Hamount.
    rewrite !(Convert_after_Fetch _ _ _ _ _ _ _ _ HFetch), Hfrom, Hinto, Hboth.
    rewrite <- (Fetch_prec w s s1 t _ HFetch).
    rewrite (computeExchangeValue_cross (client s1) amount euRec rec Hamount)
      by (cbn [Currency euRec]; congruence).
    rewrite (computeExchangeValue_cross (client s1) amount rec euRec Hamount)
      by (cbn [Currency euRec]; congruence).
    rewrite (computeExchangeValue_same (client s1) amount euRec Hamount).
    repeat split; reflexivity.
Qed.

Lemma Convert_euro_leg_witness :
  @Convert amd64
     (Fixture.serving
        {| Data := [ {| RateTime := "2016-11-11";
                        Rates := [ {| RawCurrency := "USD"; RawRate := "1.002" |};
                                   {| RawCurrency := "EUR"; RawRate := "2.5" |} ] |} ] |})
     (start (New 4 0)) 10 "EUR" "USD" (Fixture.november 11)
  = (fst (@Fetch amd64
            (Fixture.serving
               {| Data := [ {| RateTime := "2016-11-11";
                               Rates := [ {| RawCurrency := "USD"; RawRate := "1.002" |};
                                          {| RawCurrency := "EUR"; RawRate := "2.5" |} ] |} ] |})
            (start (New 4 0)) (Fixture.november 11)),
     Returns 10.02%float None).
Proof.
  assert (HFetch :
    @Fetch amd64
      (Fixture.serving
         {| Data := [ {| RateTime := "2016-11-11";
                         Rates := [ {| RawCurrency := "USD"; RawRate := "1.002" |};
                                    {| RawCurrency := "EUR"; RawRate := "2.5" |} ] |} ] |})
      (start (New 4 0)) (Fixture.november 11)
    = (fst (@Fetch amd64
              (Fixture.serving
                 {| Data := [ {| RateTime := "2016-11-11";
                                 Rates := [ {| RawCurrency := "USD"; RawRate := "1.002" |};
                                            {| RawCurrency := "EUR"; RawRate := "2.5" |} ] |} ] |})
              (start (New 4 0)) (Fixture.november 11)),
       Returns [ {| Currency := "USD"; Rate := 1.002 |};
                 {| Currency := "EUR"; Rate := 2.5 |} ] None))
    by (vm_compute; reflexivity).
  assert (Hother : "USD" <> EUCurr) by discriminate.
  assert (Hrec : lastOf "USD" [ {| Currency := "USD"; Rate := 1.002 |};
                                {| Currency := "EUR"; Rate := 2.5 |} ] None
                 = Some {| Currency := "USD"; Rate := 1.002 |})
    by reflexivity.
  assert (Hamount : PrimFloat.leb 0 10 = true) by reflexivity.
  pose proof (@Convert_euro_leg amd64 _ _ _ 10%float "USD" _ _ _ HFetch Hother Hrec)
    as (_ & _ & _ & _ & Hvalue).
  destruct (Hvalue Hamount) as [Hfrom _].
  refine (eq_trans Hfrom _). vm_compute. reflexivity.
Defined.

(** C5: for an amount that is at least zero and a code that the day
    resolves (a code of the day's list, or EUR), converting the code into
    itself returns the amount rounded to the client's precision. *)
Theorem Convert_identity `{Platform} (w : World) (s s1 : State) (amount : float)
    (code : string) (t : time.Time) (dayData : ExchangeRates) :
  Fetch w s t = (s1, Returns dayData None) ->
  code = EUCurr \/ In code (map Currency dayData) ->
  PrimFloat.leb 0 amount = true ->
  Convert w s amount code code t
  = (s1, Returns (FloatToFixed amount (prec (client s))) None).
Proof.
  intros HFetch Hcode Hamount.
  rewrite (Convert_after_Fetch _ _ _ _ _ _ _ _ HFetch).
  destruct (same_code_same_leg code dayData Hcode) as [rec ->].
  rewrite computeExchangeValue_same by (apply nonneg_not_negative; exact Hamount).
  rewrite (Fetch_prec w s s1 t _ HFetch). reflexivity.
Qed.

Lemma Convert_identity_witness :
  @Convert amd64 (Fixture.serving Fixture.testResponse) (start (New 6 0))
           10.50 "PLN" "PLN" (Fixture.november 10)
  = (fst (@Fetch amd64 (Fixture.serving Fixture.testResponse) (start (New 6 0))
                 (Fixture.november 10)),
     Returns (@FloatToFixed amd64 10.50 6) None).
Proof.
  refine (@Convert_identity amd64 _ _ _ 10.50 "PLN" _
            [ {| Currency := "USD"; Rate := 1.003123 |};
              {| Currency := "PLN"; Rate := 0.321123 |};
              {| Currency := "XYZ"; Rate := 2.00002 |} ] _ _ _).
  - vm_compute. reflexivity.
  - right. cbn. auto.
  - vm_compute. reflexivity.
Defined.

(** C3 (as amended): for an amount that is at least zero and two legs of
    different codes the result is the amount rounded to 2 digits times
    the ratio of the rates rounded to the client's precision, the product
    rounded to that precision again; on a feed whose day 2016-11-11 holds
    USD 1.002 and CHF 1.03, converting 10 CHF into USD with precision 4
    gives 9.728. *)
Theorem computeExchangeValue_rounds_thrice `{Platform} :
  (forall (c : Client) (amount : float) (in_ to : ExchangeRate),
      PrimFloat.leb 0 amount = true ->
      Currency in_ <> Currency to ->
      computeExchangeValue c amount in_ to
      = (FloatToFixed (FloatToFixed amount 2
                       * FloatToFixed (Rate to / Rate in_) (prec c)) (prec c),
         None)) /\
  snd (Convert (Fixture.serving Fixture.scenarioFeed) (start (New 4 0))
               10 "CHF" "USD" (Fixture.november 11))
  = Returns 9.728%float None.
Proof.
  split.
  - intros c amount in_ to Hamount Hcodes.
    apply computeExchangeValue_cross; [apply nonneg_not_negative|]; assumption.
  - vm_compute. reflexivity.
Qed.

Lemma computeExchangeValue_rounds_thrice_witness :
  @computeExchangeValue amd64 (New 4 0) 10
     {| Currency := "CHF"; Rate := 1.03 |} {| Currency := "USD"; Rate := 1.002 |}
  = (@FloatToFixed amd64
       (@FloatToFixed amd64 10 2 * @FloatToFixed amd64 (1.002 / 1.03) 4) 4, None).
Proof.
  apply (proj1 (@computeExchangeValue_rounds_thrice amd64)).
  - vm_compute. reflexivity.
  - cbn. discriminate.
Defined.

(** C3, the claim as worded fails: the scenario's conversion gives
    9.728, which is not 9.7281. *)
Lemma scenario_is_not_9_7281 :
  snd (@Convert amd64 (Fixture.serving Fixture.scenarioFeed) (start (New 4 0))
                10 "CHF" "USD" (Fixture.november 11))
  = Returns 9.728%float None /\
  snd (@Convert arm64 (Fixture.serving Fixture.scenarioFeed) (start (New 4 0))
                10 "CHF" "USD" (Fixture.november 11))
  = Returns 9.728%float None /\
  PrimFloat.eqb 9.728 9.7281 = false.
Proof. vm_compute. repeat split; reflexivity. Qed.

(** C2 (as amended): a negative amount never converts.  The amount is
    examined last, by [computeExchangeValue], which then fails with
    [InvalidAmount] whatever the legs; [Convert] has by then fetched the
    day (the state moves as in [Fetch]) and resolved both codes, and
    reports the failure of one of those steps instead when there is one. *)
Theorem Convert_negative_amount `{Platform} (w : World) (s : State)
    (amount : float) (source target : string) (t : time.Time) :
  PrimFloat.ltb amount 0 = true ->
  (forall (c : Client) (in_ to : ExchangeRate),
      computeExchangeValue c amount in_ to = (0%float, Some InvalidAmount)) /\
  fst (Convert w s amount source target t) = fst (Fetch w s t) /\
  snd (Convert w s amount source target t) =
  match snd (Fetch w s t) with
  | Panics => Panics
  | Returns _ (Some e) => Returns 0%float (Some e)
  | Returns dayData None =>
      match withEuro source target (scanLegs source target dayData) with
      | (Some _, Some _) => Returns 0%float (Some InvalidAmount)
      | _ => Returns 0%float
               (Some (UnknownCurrency source target (map Currency dayData)
                                      (time.Format t)))
      end
  end.
Proof.
  intros Hneg. split; [|split].
  - intros c in_ to. apply computeExchangeValue_negative. exact Hneg.
  - apply Convert_state.
  - unfold Convert. destruct (Fetch w s t) as [s1 [dayData [e|]|]]; try reflexivity.
    cbn [snd]. destruct (withEuro _ _ _) as [[in_|] [to|]]; try reflexivity.
    rewrite computeExchangeValue_negative by exact Hneg. reflexivity.
Qed.

Lemma Convert_negative_amount_witness :
  snd (@Convert amd64 (Fixture.serving Fixture.testResponse) (start (New 4 0))
                (-10) "USD" "USD" (Fixture.november 11))
  = Returns 0%float (Some InvalidAmount).
Proof.
  destruct (@Convert_negative_amount amd64 (Fixture.serving Fixture.testResponse)
              (start (New 4 0)) (-10) "USD" "USD" (Fixture.november 11))
    as (_ & _ & Hsnd).
  - vm_compute. reflexivity.
  - rewrite Hsnd. vm_compute. reflexivity.
Defined.

(** C2, the claim as worded fails: for a day without rates a negative
    amount is answered with [DateNotFound], for an unknown code with
    [UnknownCurrency], and in both cases a request has gone out. *)
Lemma negative_amount_is_checked_last :
  @Convert amd64 (Fixture.serving Fixture.testResponse) (start (New 4 0))
           (-10) "USD" "USD" (Fixture.november 8)
  = ({| client := {| XRefData := Some Fixture.testResponse;
                     RefreshInterval := 0; prec := 4;
                     lastFetched := Fixture.noon 1 |};
        ticks := 2; requests := 1 |},
     Returns 0%float (Some (DateNotFound "2016-11-08"))) /\
  snd (@Convert amd64 (Fixture.serving Fixture.testResponse) (start (New 4 0))
                (-10) "BLE" "USD" (Fixture.november 11))
  = Returns 0%float
      (Some (UnknownCurrency "BLE" "USD" ["USD"; "CHF"; "PLN"; "XYZ"] "2016-11-11")) /\
  requests (fst (@Convert amd64 (Fixture.serving Fixture.testResponse)
                          (start (New 4 0)) (-10) "BLE" "USD" (Fixture.november 11)))
  = 1%nat.
Proof. vm_compute. repeat split; reflexivity. Qed.

(* ===================================================================== *)
(** * [Fetch]: the day lookup *)
(* ===================================================================== *)

Lemma findDay_no_match (days : list XRefRawData) (timeKey : string) :
  Forall (fun dayD => RateTime dayD <> timeKey) days -> findDay days timeKey = [].
Proof.
  induction 1 as [|dayD rest Hne _ IH]; [reflexivity|].
  cbn [findDay]. apply String.eqb_neq in Hne. rewrite Hne. exact IH.
Qed.

Lemma findDay_first_match (before after : list XRefRawData) (dayD : XRefRawData)
    (timeKey : string) :
  Forall (fun d => RateTime d <> timeKey) before ->
  RateTime dayD = timeKey ->
  findDay (before ++ dayD :: after) timeKey = Rates dayD.
Proof.
  intros Hbefore Hday.
  induction Hbefore as [|d rest Hne _ IH]; cbn [app findDay].
  - rewrite Hday, String.eqb_refl. reflexivity.
  - apply String.eqb_neq in Hne. rewrite Hne. exact IH.
Qed.

Section FetchFacts.
Context `{Platform}.

(** [Fetch] once the feed is in hand. *)
Lemma Fetch_after_fetchXML (w : World) (s s1 : State) (t : time.Time)
    (feed : XRefRawResponse) :
  fetchXML w s = (s1, None) ->
  XRefData (client s1) = Some feed ->
  Fetch w s t =
  match findDay (Data feed) (time.Format t) with
  | [] => (s1, Returns [] (Some (DateNotFound (time.Format t))))
  | dayData =>
      (s1, Returns (fst (parseRates (prec (client s1)) dayData []))
                   (snd (parseRates (prec (client s1)) dayData [])))
  end.
Proof.
  intros Hfetch Hfeed. unfold Fetch. rewrite Hfetch, Hfeed.
  destruct (findDay (Data feed) (time.Format t)) as [|rec rest]; [reflexivity|].
  cbn [length Z.of_nat Z.eqb].
  destruct (parseRates _ _ _). reflexivity.
Qed.

Lemma Fetch_fetchXML_failed (w : World) (s s1 : State) (t : time.Time) (e : error) :
  fetchXML w s = (s1, Some e) -> Fetch w s t = (s1, Returns [] (Some e)).
Proof. intros Hfetch. unfold Fetch. rewrite Hfetch. reflexivity. Qed.

End FetchFacts.

(** C8: once the feed is in hand, [Fetch] fails with [DateNotFound] for
    the date formatted as YYYY-MM-DD both when no day of the feed bears
    that stamp and when the first day that bears it has an empty rate
    list; the error is the same one, and its text states the 90-day
    limit that excludes the present day. *)
Theorem Fetch_date_not_found `{Platform} (w : World) (s s1 : State)
    (t : time.Time) (feed : XRefRawResponse) :
  fetchXML w s = (s1, None) ->
  XRefData (client s1) = Some feed ->
  Forall (fun dayD => RateTime dayD <> time.Format t) (Data feed)
  \/ (exists before dayD after,
        Data feed = (before ++ dayD :: after)%list /\
        Forall (fun d => RateTime d <> time.Format t) before /\
        RateTime dayD = time.Format t /\ Rates dayD = []) ->
  Fetch w s t = (s1, Returns [] (Some (DateNotFound (time.Format t)))) /\
  Error (DateNotFound (time.Format t))
  = "Currency data for " ++ time.Format t
    ++ " doesn't exist. Records are only available for past 90 days, excluding present day.".
Proof.
  intros Hfetch Hfeed Hday. split; [|reflexivity].
  rewrite (Fetch_after_fetchXML w s s1 t feed Hfetch Hfeed).
  destruct Hday as [Hnone|(before & dayD & after & -> & Hbefore & Hstamp & Hempty)].
  - rewrite findDay_no_match by exact Hnone. reflexivity.
  - rewrite (findDay_first_match before after dayD _ Hbefore Hstamp), Hempty.
    reflexivity.
Qed.

Lemma Fetch_date_not_found_witness :
  @Fetch amd64 (Fixture.serving Fixture.testResponse) (start (New 4 0))
         (Fixture.november 8)
  = ({| client := {| XRefData := Some Fixture.testResponse;
                     RefreshInterval := 0; prec := 4;
                     lastFetched := Fixture.noon 1 |};
        ticks := 2; requests := 1 |},
     Returns [] (Some (DateNotFound "2016-11-08"))) /\
  snd (@Fetch amd64 (Fixture.serving Fixture.testResponse) (start (New 4 0))
              (time.Date 2017 11 8 23 0 0 0))
  = Returns [] (Some (DateNotFound "2017-11-08")).
Proof.
  split.
  - refine (proj1 (@Fetch_date_not_found amd64 _ _ _ (Fixture.november 8)
                     Fixture.testResponse _ _ _)).
    + reflexivity.
    + reflexivity.
    + right.
      exists (firstn 3 (Data Fixture.testResponse)),
             {| RateTime := "2016-11-08"; Rates := [] |}, [].
      split; [reflexivity|]. split; [|split; vm_compute; reflexivity].
      repeat constructor; vm_compute; discriminate.
  - refine (f_equal snd
             (proj1 (@Fetch_date_not_found amd64 _ (start (New 4 0)) _
                       (time.Date 2017 11 8 23 0 0 0) Fixture.testResponse _ _ _))).
    + reflexivity.
    + reflexivity.
    + left. repeat constructor; vm_compute; discriminate.
Defined.

(* ===================================================================== *)
(** * [FetchAll]: the enumeration *)
(* ===================================================================== *)

Section FetchAllFacts.
Context `{Platform}.

Lemma collectDays_step (w : World) (s : State) (dayD : XRefRawData)
    (rest : list XRefRawData) (rates : gmap Z ExchangeRates) :
  collectDays w s (dayD :: rest) rates =
  match resolveDay w s dayD with
  | (s1, Panics) => (s1, Panics)
  | (s1, Returns _ (Some e)) => (s1, Returns rates (Some e))
  | (s1, Returns d None) =>
      match time.Parse (RateTime dayD) with
      | Some t => collectDays w s1 rest (<[t := d]> rates)
      | None => (s1, Returns rates None)
      end
  end.
Proof.
  cbn [collectDays]. unfold resolveDay.
  destruct (time.Parse (RateTime dayD)) as [t|]; [|reflexivity].
  destruct (Fetch w s t) as [s1 [d [e|]|]]; reflexivity.
Qed.

(** The loop over a list of days in two parts. *)
Lemma collectDays_app (w : World) (before after : list XRefRawData) :
  forall (s : State) (rates : gmap Z ExchangeRates),
  collectDays w s (before ++ after) rates =
  match collectDays w s before rates with
  | (s1, Returns m None) => collectDays w s1 after m
  | stopped => stopped
  end.
Proof.
  induction before as [|dayD rest IH]; intros s rates; [reflexivity|].
  cbn [app collectDays].
  destruct (time.Parse (RateTime dayD)) as [t|]; [|reflexivity].
  destruct (Fetch w s t) as [s1 [d [e|]|]]; try reflexivity.
  apply IH.
Qed.

(** Where the loop stops: at the first day whose resolution fails, with
    that day's error and the map as the days before it left it. *)
Lemma collectDays_fails_fast (w : World) (s s1 s2 : State)
    (before after : list XRefRawData) (dayD : XRefRawData)
    (rates m : gmap Z ExchangeRates) (d : ExchangeRates) (e : error) :
  collectDays w s before rates = (s1, Returns m None) ->
  resolveDay w s1 dayD = (s2, Returns d (Some e)) ->
  collectDays w s (before ++ dayD :: after) rates = (s2, Returns m (Some e)).
Proof.
  intros Hbefore Hday.
  rewrite collectDays_app, Hbefore, collectDays_step, Hday. reflexivity.
Qed.

(** [FetchAll] once the feed is in hand. *)
Lemma FetchAll_after_fetchXML (w : World) (s s0 : State) (feed : XRefRawResponse) :
  fetchXML w s = (s0, None) ->
  XRefData (client s0) = Some feed ->
  FetchAll w s = collectDays w s0 (Data feed) ∅.
Proof. intros Hfetch Hfeed. unfold FetchAll. rewrite Hfetch, Hfeed. reflexivity. Qed.

End FetchAllFacts.

(** C9 (as amended): when the days before some day of the feed resolve
    and that day's resolution fails, [FetchAll] stops there (nothing
    depends on the days after it, and the state is the one that day's
    resolution left) and returns that day's error; the map returned with
    the error is the one the days before it have filled.  On the feed of
    the tests, whose fourth day has no rates, the error is that day's
    [DateNotFound] and the map holds the three days before it. *)
Theorem FetchAll_fails_fast `{Platform} :
  (forall (w : World) (s s0 s1 s2 : State) (feed : XRefRawResponse)
          (before after : list XRefRawData) (dayD : XRefRawData)
          (m : gmap Z ExchangeRates) (d : ExchangeRates) (e : error),
      fetchXML w s = (s0, None) ->
      XRefData (client s0) = Some feed ->
      Data feed = (before ++ dayD :: after)%list ->
      collectDays w s0 before ∅ = (s1, Returns m None) ->
      resolveDay w s1 dayD = (s2, Returns d (Some e)) ->
      FetchAll w s = (s2, Returns m (Some e))) /\
  (exists m : gmap Z ExchangeRates,
      snd (FetchAll (Fixture.serving Fixture.testResponse) (start (New 4 0)))
      = Returns m (Some (DateNotFound "2016-11-08")) /\
      size m = 3%nat /\
      Map <$> (m !! time.Date 2016 11 9 0 0 0 0) = Some {[ "USD" := 3%float ]}).
Proof.
  split.
  - intros w s s0 s1 s2 feed before after dayD m d e Hfetch Hfeed Hdays Hbefore Hday.
    rewrite (FetchAll_after_fetchXML w s s0 feed Hfetch Hfeed), Hdays.
    apply (collectDays_fails_fast w s0 s1 s2 before after dayD ∅ m d e Hbefore Hday).
  - eexists. split; [vm_compute; reflexivity|].
    split; vm_compute; reflexivity.
Qed.

Lemma FetchAll_fails_fast_witness :
  exists (s2 : State) (m : gmap Z ExchangeRates),
    @FetchAll amd64 (Fixture.serving Fixture.testResponse) (start (New 4 0))
    = (s2, Returns m (Some (DateNotFound "2016-11-08"))).
Proof.
  eexists. eexists.
  refine (proj1 (@FetchAll_fails_fast amd64)
            (Fixture.serving Fixture.testResponse) (start (New 4 0)) _ _ _
            Fixture.testResponse (firstn 3 (Data Fixture.testResponse)) []
            {| RateTime := "2016-11-08"; Rates := [] |} _ [] _ _ _ _ _ _).
  - reflexivity.
  - reflexivity.
  - reflexivity.
  - vm_compute. reflexivity.
  - vm_compute. reflexivity.
Defined.

(** C9, the claim as worded fails: the enumeration of the tests' feed
    stops at its empty day with [DateNotFound], and a map of the three
    days before it comes back together with the error. *)
Lemma FetchAll_returns_the_partial_map :
  exists m : gmap Z ExchangeRates,
    snd (@FetchAll amd64 (Fixture.serving Fixture.testResponse) (start (New 4 0)))
    = Returns m (Some (DateNotFound "2016-11-08")) /\
    size m = 3%nat /\
    Map <$> (m !! time.Date 2016 11 11 0 0 0 0)
    = Some {[ "USD" := 1.002%float; "CHF" := 1.03%float;
              "PLN" := 0.321%float; "XYZ" := 2%float ]}.
Proof.
  eexists. split; [vm_compute; reflexivity|].
  split; vm_compute; reflexivity.
Qed.

(* ===================================================================== *)
(** * [fetchXML]: freshness and failures *)
(* ===================================================================== *)

Lemma fresh_spec (c : Client) (now : time.Time) :
  fresh c now = true <-> elapsedSeconds c now < RefreshInterval c /\ 0 < RefreshInterval c.
Proof.
  unfold fresh, elapsedSeconds.
  rewrite andb_true_iff, Z.ltb_lt, Z.gtb_ltb, Z.ltb_lt. reflexivity.
Qed.

Lemma fetchXML_fresh (w : World) (s : State) :
  fresh (client s) (clock w (ticks s)) = true ->
  fetchXML w s
  = ({| client := client s; ticks := S (ticks s); requests := requests s |}, None).
Proof. intros Hfresh. rewrite fetchXML_cases, Hfresh. reflexivity. Qed.

Lemma fetchXML_stale (w : World) (s : State) :
  fresh (client s) (clock w (ticks s)) = false ->
  requests (fst (fetchXML w s)) = S (requests s).
Proof.
  intros Hstale. rewrite fetchXML_cases, Hstale.
  destruct (server w (requests s)); reflexivity.
Qed.

(** A transport failure returns before the client is touched. *)
Lemma fetchXML_transport_failure (w : World) (s : State) (msg : string) :
  fresh (client s) (clock w (ticks s)) = false ->
  server w (requests s) = GetError msg ->
  client (fst (fetchXML w s)) = client s /\
  snd (fetchXML w s) = Some (FetchFailed (Transport msg)).
Proof.
  intros Hstale Hget. rewrite fetchXML_cases, Hstale, Hget. split; reflexivity.
Qed.

(** A decoding failure is returned after the document and the time of
    the download have been stored. *)
Lemma fetchXML_decode_failure (w : World) (s : State) (data : XRefRawResponse)
    (msg : string) :
  fresh (client s) (clock w (ticks s)) = false ->
  server w (requests s) = GetBody data (Some msg) ->
  XRefData (client (fst (fetchXML w s))) = Some data /\
  lastFetched (client (fst (fetchXML w s))) = clock w (S (ticks s)) /\
  snd (fetchXML w s) = Some (FetchFailed (Decode msg)).
Proof.
  intros Hstale Hget. rewrite fetchXML_cases, Hstale, Hget. repeat split.
Qed.

(** From the zero time to any instant more than the longest span later,
    the code counts the longest span. *)
Lemma elapsedSeconds_never_fetched (c : Client) (now : time.Time) :
  lastFetched c = time.zero -> time.maxDuration <= now ->
  elapsedSeconds c now = longestSpan.
Proof.
  intros Hzero Hnow. unfold elapsedSeconds. rewrite Hzero.
  replace (time.Sub now time.zero) with time.maxDuration.
  - vm_compute. reflexivity.
  - unfold time.Sub, time.zero, time.minDuration, time.maxDuration in *.
    rewrite Z.sub_0_r, Z.min_l by exact Hnow.
    rewrite Z.max_r; [reflexivity|]. vm_compute. discriminate.
Qed.

(** C1, evaluated where the claim fails: a client holding the tests'
    feed since the evening of November 11th, with a refresh interval of
    60 seconds, meets at noon of the 12th a server whose answer cannot
    be decoded.  The error comes back, but the held feed has been
    replaced by the decoder's empty document and the time of the last
    download has advanced; the next lookup of November 11th, within the
    interval, sends no request and finds no such day. *)
Theorem decode_failure_overwrites_the_cache :
  fetchXML (Fixture.garbled "XML syntax error")
           (Fixture.holding Fixture.testResponse (Fixture.november 11) 4 60)
  = ({| client := {| XRefData := Some {| Data := [] |};
                     RefreshInterval := 60; prec := 4;
                     lastFetched := Fixture.noon 1 |};
        ticks := 2; requests := 1 |},
     Some (FetchFailed (Decode "XML syntax error"))) /\
  @Fetch amd64 (Fixture.garbled "XML syntax error")
         (fst (fetchXML (Fixture.garbled "XML syntax error")
                        (Fixture.holding Fixture.testResponse
                                         (Fixture.november 11) 4 60)))
         (Fixture.november 11)
  = ({| client := {| XRefData := Some {| Data := [] |};
                     RefreshInterval := 60; prec := 4;
                     lastFetched := Fixture.noon 1 |};
        ticks := 3; requests := 1 |},
     Returns [] (Some (DateNotFound "2016-11-11"))).
Proof. vm_compute. split; reflexivity. Qed.

(** X3: the freshness test in the code's own count, the whole seconds
    of [elapsedSeconds]: with a refresh interval of zero every call
    sends a request; with a positive interval and fewer seconds counted
    than the interval, no request is sent and the client is left as it
    is; and for a client whose last download is the zero time, read more
    than the longest span later, the count is that span, so a request is
    sent exactly when the interval is at most 9223372036 seconds. *)
Theorem fetchXML_freshness (w : World) (s : State) :
  (RefreshInterval (client s) = 0 ->
   requests (fst (fetchXML w s)) = S (requests s)) /\
  (0 < RefreshInterval (client s) ->
   elapsedSeconds (client s) (clock w (ticks s)) < RefreshInterval (client s) ->
   fetchXML w s
   = ({| client := client s; ticks := S (ticks s); requests := requests s |}, None)) /\
  (lastFetched (client s) = time.zero ->
   time.maxDuration <= clock w (ticks s) ->
   (RefreshInterval (client s) <= longestSpan ->
    requests (fst (fetchXML w s)) = S (requests s)) /\
   (longestSpan < RefreshInterval (client s) ->
    fetchXML w s
    = ({| client := client s; ticks := S (ticks s); requests := requests s |}, None))).
Proof.
  split; [|split].
  - intros Hzero. apply fetchXML_stale.
    unfold fresh. rewrite Hzero. apply andb_false_r.
  - intros Hpos Helapsed. apply fetchXML_fresh, fresh_spec. split; assumption.
  - intros Hnever Hnow.
    pose proof (elapsedSeconds_never_fetched _ _ Hnever Hnow) as Hspan.
    split.
    + intros Hshort. apply fetchXML_stale.
      destruct (fresh (client s) (clock w (ticks s))) eqn:Hfresh; [|reflexivity].
      apply fresh_spec in Hfresh. lia.
    + intros Hlong. apply fetchXML_fresh, fresh_spec.
      unfold longestSpan in *. lia.
Qed.

Lemma fetchXML_freshness_witness :
  requests (fst (fetchXML (Fixture.serving Fixture.testResponse) (start (New 4 0))))
  = 1%nat /\
  fetchXML (Fixture.serving Fixture.testResponse)
           (Fixture.holding Fixture.testResponse
              (time.Date 2016 11 12 11 59 30 0) 4 60)
  = ({| client := {| XRefData := Some Fixture.testResponse;
                     RefreshInterval := 60; prec := 4;
                     lastFetched := time.Date 2016 11 12 11 59 30 0 |};
        ticks := 1; requests := 0 |}, None) /\
  requests (fst (fetchXML (Fixture.serving Fixture.testResponse) (start (New 4 60))))
  = 1%nat.
Proof.
  split; [|split].
  - apply (proj1 (fetchXML_freshness (Fixture.serving Fixture.testResponse)
                    (start (New 4 0)))).
    reflexivity.
  - apply (proj1 (proj2 (fetchXML_freshness (Fixture.serving Fixture.testResponse)
              (Fixture.holding Fixture.testResponse
                 (time.Date 2016 11 12 11 59 30 0) 4 60)))).
    + vm_compute. reflexivity.
    + vm_compute. reflexivity.
  - apply (proj2 (proj2 (fetchXML_freshness (Fixture.serving Fixture.testResponse)
                           (start (New 4 60))))).
    + reflexivity.
    + vm_compute. discriminate.
    + vm_compute. discriminate.
Defined.

(** C6: a fetch is not always issued when none has occurred, and a
    positive TTL that has not yet elapsed does not always hold the fetch
    back.  The code keeps no record of whether it has downloaded: it
    compares the seconds since [lastFetched], the zero time at first,
    with the TTL, and [time.Sub] stops at the longest duration,
    9223372036 seconds.  A client made with a TTL of ten thousand
    million seconds therefore sends no request at its first call, and
    the lookup that follows dereferences the feed that is not there.
    And the seconds are counted in binary64: 16777216.999999999 seconds
    after a download the count is 16777217, so with a TTL of 16777217
    seconds, one nanosecond before it has elapsed, the feed is
    downloaded again. *)
Theorem never_fetched_yet_no_request :
  fetchXML (Fixture.serving Fixture.testResponse) (start (New 4 10000000000))
  = ({| client := {| XRefData := None; RefreshInterval := 10000000000;
                     prec := 4; lastFetched := time.zero |};
        ticks := 1; requests := 0 |}, None) /\
  @Fetch amd64 (Fixture.serving Fixture.testResponse) (start (New 4 10000000000))
         (Fixture.november 11)
  = ({| client := {| XRefData := None; RefreshInterval := 10000000000;
                     prec := 4; lastFetched := time.zero |};
        ticks := 1; requests := 0 |}, Panics) /\
  @Convert amd64 (Fixture.serving Fixture.testResponse) (start (New 4 10000000000))
           10 "USD" "PLN" (Fixture.november 11)
  = ({| client := {| XRefData := None; RefreshInterval := 10000000000;
                     prec := 4; lastFetched := time.zero |};
        ticks := 1; requests := 0 |}, Panics) /\
  time.Sub (Fixture.noon 0) (Fixture.noon 0 - 16777216999999999)
  = 16777216999999999 /\
  16777216999999999 < 16777217 * time.Second /\
  elapsedSeconds
    (client (Fixture.holding Fixture.testResponse
               (Fixture.noon 0 - 16777216999999999) 4 16777217))
    (Fixture.noon 0)
  = 16777217 /\
  requests
    (fst (fetchXML (Fixture.serving Fixture.testResponse)
            (Fixture.holding Fixture.testResponse
               (Fixture.noon 0 - 16777216999999999) 4 16777217)))
  = 1%nat.
Proof. vm_compute. repeat split; reflexivity. Qed.

(* ===================================================================== *)
(** * Binary formats: what rounding returns *)
(* ===================================================================== *)


(** * Digits *)
Lemma Zdigits2_log2 (m : Z) : 0 < m -> Zdigits2 m = Z.log2 m + 1.
Proof.
  destruct m as [|p|p]; try lia. intros _. cbn [Zdigits2].
  induction p as [p IH|p IH|].
  - cbn [digits2_pos]. rewrite Pos2Z.inj_succ, IH.
    change (Z.log2 (Z.pos p~1)) with (Z.pos (Pos.size p)).
    destruct p; cbn; lia.
  - cbn [digits2_pos]. rewrite Pos2Z.inj_succ, IH.
    change (Z.log2 (Z.pos p~0)) with (Z.pos (Pos.size p)).
    destruct p; cbn; lia.
  - reflexivity.
Qed.
Lemma Zdigits2_nonneg (m : Z) : 0 <= Zdigits2 m.
Proof. destruct m; cbn; lia. Qed.
Lemma Zdigits2_pos (m : Z) : 0 < m -> 0 < Zdigits2 m.
Proof. destruct m; cbn; lia. Qed.
Lemma Zdigits2_bounds (m : Z) :
  0 < m -> 2 ^ (Zdigits2 m - 1) <= m < 2 ^ Zdigits2 m.
Proof.
  intros Hm. rewrite (Zdigits2_log2 m Hm).
  replace (Z.log2 m + 1 - 1) with (Z.log2 m) by lia.
  apply (Z.log2_spec m Hm).
Qed.
Lemma Zdigits2_unique (m d : Z) :
  2 ^ (d - 1) <= m < 2 ^ d -> 0 < d -> Zdigits2 m = d.
Proof.
  intros Hb Hd.
  assert (0 < m) by (pose proof (Z.pow_pos_nonneg 2 (d - 1)); lia).
  rewrite Zdigits2_log2 by assumption.
  rewrite (Z.log2_unique m (d - 1)); [lia | lia |].
  replace (Z.succ (d - 1)) with d by lia. exact Hb.
Qed.
Lemma Zdigits2_ge (m d : Z) : 0 <= d -> 2 ^ d <= m -> d + 1 <= Zdigits2 m.
Proof.
  intros Hd Hm.
  assert (0 < m) by (pose proof (Z.pow_pos_nonneg 2 d); lia).
  rewrite Zdigits2_log2 by assumption.
  pose proof (Z.log2_le_pow2 m d). lia.
Qed.

(** * Rounding a quotient to the nearest integer, ties to even *)

Lemma round_even_spec (g d : Z) :
  0 < d ->
  g / d <= strconv.round_even g d <= g / d + 1 /\
  2 * Z.abs (g - strconv.round_even g d * d) <= d /\
  Z.abs (g - strconv.round_even g d * d) <= g mod d /\
  Z.abs (g - strconv.round_even g d * d) <= d - g mod d /\
  (2 * Z.abs (g - strconv.round_even g d * d) = d -> Z.even (strconv.round_even g d) = true).
Proof.
  intros Hd. unfold strconv.round_even.
  pose proof (Z.div_mod g d ltac:(lia)) as Hdiv.
  pose proof (Z.mod_pos_bound g d Hd) as Hr.
  set (q := g / d) in *. set (r := g mod d) in *.
  destruct (Z.ltb_spec (2 * r) d) as [Hlt|Hge].
  - replace (g - q * d) with r by lia. rewrite Z.abs_eq by lia.
    repeat split; lia.
  - destruct (Z.ltb_spec d (2 * r)) as [Hgt|Hle].
    + replace (g - (q + 1) * d) with (- (d - r)) by lia.
      rewrite Z.abs_opp, Z.abs_eq by lia. repeat split; lia.
    + assert (Htie : 2 * r = d) by lia.
      destruct (Z.even q) eqn:Heven.
      * replace (g - q * d) with r by lia. rewrite Z.abs_eq by lia.
        repeat split; try lia. intros _. exact Heven.
      * replace (g - (q + 1) * d) with (- (d - r)) by lia.
        rewrite Z.abs_opp, Z.abs_eq by lia. repeat split; try lia.
        intros _. rewrite Z.even_add, Heven. reflexivity.
Qed.

(** A value [mw * 2^t] with fewer than [p] digits to its mantissa lies
    on one side of two neighbours [q * 2^s] and [(q + 1) * 2^s] when [q]
    has [p] digits, or when [s] is zero. *)
Lemma competitor_outside (p q s mw t : Z) :
  0 < p -> 0 <= s -> 0 <= t -> 0 <= q -> 0 <= mw < 2 ^ p ->
  (0 < s -> 2 ^ (p - 1) <= q) ->
  mw * 2 ^ t <= q * 2 ^ s \/ (q + 1) * 2 ^ s <= mw * 2 ^ t.
Proof.
  intros Hp Hs Ht Hq Hmw Hfull.
  assert (Hps : 0 < 2 ^ s) by (apply Z.pow_pos_nonneg; lia).
  destruct (Z_le_gt_dec s t) as [Hst|Hts].
  - replace t with ((t - s) + s) by lia. rewrite Z.pow_add_r by lia.
    assert (0 < 2 ^ (t - s)) by (apply Z.pow_pos_nonneg; lia).
    destruct (Z_le_gt_dec (mw * 2 ^ (t - s)) q); [left|right]; nia.
  - left. specialize (Hfull ltac:(lia)).
    assert (Hpt : 0 < 2 ^ t) by (apply Z.pow_pos_nonneg; lia).
    assert (Hsplit : 2 ^ s = 2 ^ t * 2 ^ (s - t))
      by (rewrite <- Z.pow_add_r by lia; f_equal; lia).
    assert (Hone : 2 ^ (s - t) = 2 * 2 ^ (s - t - 1)).
    { replace (s - t) with (1 + (s - t - 1)) at 1 by lia.
      rewrite Z.pow_add_r by lia. reflexivity. }
    assert (Hpp : 2 ^ p = 2 * 2 ^ (p - 1)).
    { replace p with (1 + (p - 1)) at 1 by lia.
      rewrite Z.pow_add_r by lia. reflexivity. }
    assert (0 < 2 ^ (s - t - 1)) by (apply Z.pow_pos_nonneg; lia).
    assert (0 < 2 ^ (p - 1)) by (apply Z.pow_pos_nonneg; lia).
    rewrite Hsplit, Hone.
    assert (mw <= 2 * 2 ^ (p - 1) - 1) by lia.
    assert (mw * 2 ^ t <= (2 * 2 ^ (p - 1)) * 2 ^ t) by nia.
    assert (2 ^ (p - 1) * (2 ^ t * 2 ^ (s - t - 1)) <= q * (2 ^ t * 2 ^ (s - t - 1))) by nia.
    nia.
Qed.

(** Among the values [mw * 2^t] with [mw] below [2^p], none is nearer to
    [g / d] than [g / d] rounded in units of [2^s], when the quotient
    in those units has [p] digits or [s] is zero. *)
Lemma round_even_nearest (p g d s mw t : Z) :
  0 < p -> 0 < d -> 0 <= g -> 0 <= s -> 0 <= t -> 0 <= mw < 2 ^ p ->
  (0 < s -> 2 ^ (p - 1) <= g / (d * 2 ^ s)) ->
  let m := strconv.round_even g (d * 2 ^ s) in
  Z.abs (g - m * 2 ^ s * d) <= Z.abs (g - mw * 2 ^ t * d) /\
  (Z.abs (g - m * 2 ^ s * d) = Z.abs (g - mw * 2 ^ t * d) ->
   mw * 2 ^ t <> m * 2 ^ s -> Z.even m = true).
Proof.
  intros Hp Hd Hg Hs Ht Hmw Hfull m.
  assert (Hps : 0 < 2 ^ s) by (apply Z.pow_pos_nonneg; lia).
  assert (Hd' : 0 < d * 2 ^ s) by nia.
  destruct (round_even_spec g (d * 2 ^ s) Hd') as (Hm & Hhalf & Hlo & Hhi & Htie).
  fold m in Hm, Hhalf, Hlo, Hhi, Htie. clearbody m.
  pose proof (Z.div_mod g (d * 2 ^ s) ltac:(lia)) as Hdiv.
  pose proof (Z.mod_pos_bound g (d * 2 ^ s) Hd') as Hr.
  assert (Hq : 0 <= g / (d * 2 ^ s)) by (apply Z.div_pos; lia).
  set (q := g / (d * 2 ^ s)) in *. set (r := g mod (d * 2 ^ s)) in *.
  replace (m * 2 ^ s * d) with (m * (d * 2 ^ s)) by ring.
  assert (Hgapm : m = q /\ Z.abs (g - m * (d * 2 ^ s)) = r
                   \/ m = q + 1 /\ Z.abs (g - m * (d * 2 ^ s)) = d * 2 ^ s - r).
  { destruct (Z.eq_dec m q) as [Hmq|Hne]; [left|right]; split; try lia.
    replace m with (q + 1) by lia. rewrite Z.abs_neq; lia. }
  destruct (competitor_outside p q s mw t Hp Hs Ht Hq Hmw Hfull) as [Hleft|Hright].
  - assert (Hw : mw * 2 ^ t * d <= q * (d * 2 ^ s)) by nia.
    rewrite (Z.abs_eq (g - mw * 2 ^ t * d)) by lia.
    split; [lia|].
    intros Heq Hdiff.
    destruct Hgapm as [[Hmq Hgap]|[Hmq Hgap]].
    + exfalso. apply Hdiff. rewrite Hmq.
      assert (mw * 2 ^ t * d = q * 2 ^ s * d) by lia. nia.
    + apply Htie. lia.
  - assert (Hw : (q + 1) * (d * 2 ^ s) <= mw * 2 ^ t * d) by nia.
    rewrite (Z.abs_neq (g - mw * 2 ^ t * d)) by lia.
    split; [lia|].
    intros Heq Hdiff.
    destruct Hgapm as [[Hmq Hgap]|[Hmq Hgap]].
    + apply Htie. lia.
    + exfalso. apply Hdiff. rewrite Hmq.
      assert (mw * 2 ^ t * d = (q + 1) * 2 ^ s * d) by lia. nia.
Qed.

Section NearestFacts.
Variables p emx : Z.
Hypothesis Hp : 1 < p.
Hypothesis Hem : SpecFloat.emin p emx <= 0.
Hypothesis Hrange : SpecFloat.emin p emx <= emx - p.

(** What [nearest] works with: the integer part [q0] in the least
    units, the number [s] of its digits that are rounded away, and the
    quotient in the units of the result. *)
Lemma nearest_quotient (g d : Z) :
  0 <= g -> 0 < d ->
  let s := Z.max 0 (Zdigits2 (g / d) - p) in
  g / (d * 2 ^ s) < 2 ^ p /\
  (0 < s -> 2 ^ (p - 1) <= g / (d * 2 ^ s)) /\
  (2 ^ (p + s - 1) * d <= g \/ s = 0).
Proof.
  intros Hg Hd s.
  assert (Hs : 0 <= s) by (unfold s; lia).
  assert (Hps : 0 < 2 ^ s) by (apply Z.pow_pos_nonneg; lia).
  assert (Hq0 : 0 <= g / d) by (apply Z.div_pos; lia).
  rewrite <- Z.div_div by lia.
  pose proof (Z.div_mod g d ltac:(lia)) as Hdiv.
  pose proof (Z.mod_pos_bound g d Hd) as Hr.
  set (q0 := g / d) in *.
  assert (Hlt : q0 < 2 ^ (p + s)).
  { destruct (Z.eq_dec q0 0) as [->|Hne].
    - apply Z.pow_pos_nonneg; lia.
    - pose proof (Zdigits2_bounds q0 ltac:(lia)) as [_ Hhi].
      assert (Zdigits2 q0 <= p + s) by (unfold s; lia).
      pose proof (Z.pow_le_mono_r 2 (Zdigits2 q0) (p + s) ltac:(lia) ltac:(lia)).
      lia. }
  rewrite Z.pow_add_r in Hlt by lia.
  split; [apply Z.div_lt_upper_bound; lia|].
  assert (Hfull : 0 < s -> 2 ^ (p + s - 1) <= q0).
  { intros Hspos.
    assert (Hq0pos : 0 < q0).
    { destruct (Z.eq_dec q0 0) as [Heq|]; [|lia].
      unfold s in Hspos. rewrite Heq in Hspos. cbn in Hspos. lia. }
    pose proof (Zdigits2_bounds q0 Hq0pos) as [Hlo _].
    replace (p + s - 1) with (Zdigits2 q0 - 1) by (unfold s in *; lia).
    exact Hlo. }
  split.
  - intros Hspos. specialize (Hfull Hspos).
    apply Z.div_le_lower_bound; [lia|].
    rewrite <- Z.pow_add_r by lia.
    replace (s + (p - 1)) with (p + s - 1) by lia. exact Hfull.
  - destruct (Z.eq_dec s 0) as [|Hne]; [right; assumption|left].
    specialize (Hfull ltac:(lia)). nia.
Qed.


Lemma pow2_split (a b : Z) : 0 <= a -> 0 <= b -> 2 ^ (a + b) = 2 ^ a * 2 ^ b.
Proof. intros. apply Z.pow_add_r; lia. Qed.

Lemma pow2_odd_pred (k : Z) : 0 < k -> Z.even (2 ^ k - 1) = false.
Proof.
  intros Hk. replace k with (Z.succ (k - 1)) by lia.
  rewrite Z.pow_succ_r by lia.
  replace (2 * 2 ^ (k - 1) - 1) with (1 + 2 * (2 ^ (k - 1) - 1)) by lia.
  rewrite Z.even_add_mul_2. reflexivity.
Qed.

Lemma pow2_even (k : Z) : 0 < k -> Z.even (2 ^ k) = true.
Proof.
  intros Hk. replace k with (Z.succ (k - 1)) by lia.
  rewrite Z.pow_succ_r by lia.
  replace (2 * 2 ^ (k - 1)) with (0 + 2 * 2 ^ (k - 1)) by lia.
  rewrite Z.even_add_mul_2. reflexivity.
Qed.

(** [nearest] rounds to nearest, ties to even. *)
Lemma nearest_is_nearest_even (sign : bool) (n d : Z) :
  0 <= n -> 0 < d ->
  Binary.nearest_even p emx n d (strconv.nearest p emx sign n d).
Proof.
  intros Hn Hd. unfold strconv.nearest. cbv zeta.
  set (em := SpecFloat.emin p emx) in *.
  rewrite (Z.shiftl_mul_pow2 n (- em)) by lia.
  set (g := n * 2 ^ (- em)).
  assert (Hg : 0 <= g)
    by (unfold g; apply Z.mul_nonneg_nonneg; [lia | apply Z.pow_nonneg; lia]).
  pose proof (nearest_quotient g d Hg Hd) as Hquot. cbv zeta in Hquot.
  set (s := Z.max 0 (Zdigits2 (g / d) - p)) in *.
  assert (Hs : 0 <= s) by (unfold s; lia).
  rewrite (Z.shiftl_mul_pow2 d s) by lia.
  destruct Hquot as (Hqlt & Hfull & Hbig).
  assert (Hps : 0 < 2 ^ s) by (apply Z.pow_pos_nonneg; lia).
  assert (Hd' : 0 < d * 2 ^ s) by lia.
  assert (Hpp : 0 < 2 ^ (p - 1)) by (apply Z.pow_pos_nonneg; lia).
  assert (Hp2 : 2 ^ p = 2 * 2 ^ (p - 1)).
  { replace p with (Z.succ (p - 1)) at 1 by lia. apply Z.pow_succ_r. lia. }
  assert (Hp3 : 2 ^ (p + 1) = 2 * 2 ^ p) by (apply Z.pow_succ_r; lia).
  assert (H4 : 4 <= 2 ^ p).
  { pose proof (Z.pow_le_mono_r 2 1 (p - 1) ltac:(lia) ltac:(lia)) as H.
    change (2 ^ 1) with 2 in H. lia. }
  assert (Hq : 0 <= g / (d * 2 ^ s)) by (apply Z.div_pos; lia).
  pose proof (round_even_spec g (d * 2 ^ s) Hd') as (Hmq & Hhalf & _ & _ & Htie).
  pose proof (fun mw t H1 H2 =>
    round_even_nearest p g d s mw t ltac:(lia) Hd Hg Hs H1 H2 Hfull) as Hnear.
  cbv zeta in Hnear.
  set (E := emx - p - em).
  assert (HE : 0 <= E) by (unfold E; lia).
  assert (HpE : 0 < 2 ^ E) by (apply Z.pow_pos_nonneg; lia).
  set (m := strconv.round_even g (d * 2 ^ s)) in *.
  destruct (Z.ltb_spec (emx - p) (em + s)) as [Hover|Hfit].
  - (* the integer part alone is past the exponent range *)
    cbn [Binary.nearest_even]. unfold Binary.overflow_gap. fold em. fold g. fold E.
    destruct Hbig as [Hbig|Hbig]; [|lia].
    assert (Hle : 2 ^ (E + 1) <= 2 ^ s)
      by (apply Z.pow_le_mono_r; unfold E; lia).
    rewrite Z.pow_add_r in Hle by lia. change (2 ^ 1) with 2 in Hle.
    replace (p + s - 1) with ((p - 1) + s) in Hbig by lia.
    rewrite Z.pow_add_r in Hbig by lia.
    assert (H1 : 2 ^ (p - 1) * (2 ^ E * 2) * d <= 2 ^ (p - 1) * 2 ^ s * d).
    { apply Z.mul_le_mono_nonneg_r; [lia|].
      apply Z.mul_le_mono_nonneg_l; lia. }
    assert (H2 : 0 <= 2 ^ E * d) by (apply Z.mul_nonneg_nonneg; lia).
    rewrite Hp3, Hp2. lia.
  - assert (HsE : 2 ^ s <= 2 ^ E) by (apply Z.pow_le_mono_r; unfold E; lia).
    destruct (Z.eqb_spec m (2 ^ p)) as [Hm|Hm].
    + (* the rounding carried into the next power of two *)
      destruct (2 ^ (p - 1)) as [|mp|mp] eqn:Hmp; try lia.
      destruct (Z.leb_spec (em + s + 1) (emx - p)) as [Hfit'|Hover].
      * assert (HsE' : 2 * 2 ^ s <= 2 ^ E).
        { replace (2 * 2 ^ s) with (2 ^ (s + 1))
            by (rewrite Z.pow_add_r by lia; change (2 ^ 1) with 2; lia).
          apply Z.pow_le_mono_r; unfold E; lia. }
        cbn [Binary.nearest_even]. fold em. fold g. unfold Binary.overflow_gap. fold em. fold E.
        assert (Hunit : forall x, x * 2 ^ (em + s + 1 - em) = 2 * x * 2 ^ s).
        { intros x. replace (em + s + 1 - em) with (s + 1) by lia.
          rewrite Z.pow_add_r by lia. change (2 ^ 1) with 2. lia. }
        split; [|split].
        -- unfold Binary.representable. fold em. lia.
        -- rewrite Hm in Hhalf.
           assert (F1 : (2 ^ (p + 1) - 1) * (2 * 2 ^ s) * d
                        <= (2 ^ (p + 1) - 1) * 2 ^ E * d).
           { apply Z.mul_le_mono_nonneg_r; [lia|].
             apply Z.mul_le_mono_nonneg_l; lia. }
           assert (F2 : 4 * (d * 2 ^ s) <= 2 ^ p * (d * 2 ^ s))
             by (apply Z.mul_le_mono_nonneg_r; lia).
           rewrite Hp3 in *. lia.
        -- intros mw ew [Hmw Hew]. fold em in Hew.
           unfold Binary.gap. fold em. fold g.
           rewrite Hunit.
           destruct (Hnear mw (ew - em) ltac:(lia) Hmw) as [Hle Heq].
           replace (2 * Z.pos mp * 2 ^ s) with (m * 2 ^ s) by lia.
           split; [exact Hle|].
           intros _ _. rewrite <- Hmp. apply pow2_even. lia.
      * cbn [Binary.nearest_even]. unfold Binary.overflow_gap. fold em. fold g. fold E.
        assert (HEs : E = s) by (unfold E; lia). rewrite HEs.
        rewrite Hm in Hhalf. rewrite Hp3. lia.
    + destruct m as [|mp|mp] eqn:Hmeq.
      * (* nothing is left *)
        cbn [Binary.nearest_even]. fold em. fold g.
        destruct (Z.eq_dec s 0) as [Hs0|Hs0].
        -- rewrite Hs0 in Hhalf. change (2 ^ 0) with 1 in Hhalf. lia.
        -- specialize (Hfull ltac:(lia)). lia.
      * destruct (Z.leb_spec (em + s) (emx - p)) as [_|]; [|lia].
        cbn [Binary.nearest_even]. fold em. fold g. unfold Binary.overflow_gap. fold em. fold E.
        assert (Hunit : forall x, x * 2 ^ (em + s - em) = x * 2 ^ s).
        { intros x. replace (em + s - em) with s by lia. reflexivity. }
        assert (Hmlt : Z.pos mp < 2 ^ p) by lia.
        assert (F1 : (2 ^ (p + 1) - 1) * 2 ^ s * d
                     <= (2 ^ (p + 1) - 1) * 2 ^ E * d).
        { apply Z.mul_le_mono_nonneg_r; [lia|].
          apply Z.mul_le_mono_nonneg_l; lia. }
        assert (F2 : Z.pos mp * (d * 2 ^ s) <= (2 ^ p - 1) * (d * 2 ^ s))
          by (apply Z.mul_le_mono_nonneg_r; lia).
        split; [|split].
        -- unfold Binary.representable. fold em. lia.
        -- rewrite Hp3 in *.
           destruct (Z.eq_dec (2 * Z.abs (g - Z.pos mp * (d * 2 ^ s))) (d * 2 ^ s))
             as [Heq|Hneq]; [|lia].
           specialize (Htie Heq).
           destruct (Z.eq_dec (Z.pos mp) (2 ^ p - 1)) as [Hlast|Hlast].
           ++ rewrite Hlast in Htie.
              rewrite pow2_odd_pred in Htie by lia. discriminate.
           ++ assert (F3 : Z.pos mp * (d * 2 ^ s) <= (2 ^ p - 2) * (d * 2 ^ s))
                by (apply Z.mul_le_mono_nonneg_r; lia).
              lia.
        -- intros mw ew [Hmw Hew]. fold em in Hew.
           unfold Binary.gap. fold em. fold g.
           rewrite Hunit.
           exact (Hnear mw (ew - em) ltac:(lia) Hmw).
      * lia.
Qed.


Lemma Zdigits2_le (m d : Z) : 0 <= d -> 0 <= m < 2 ^ d -> Zdigits2 m <= d.
Proof.
  intros Hd [Hm Hlt].
  destruct (Z.eq_dec m 0) as [->|Hne]; [cbn; lia|].
  pose proof (Zdigits2_bounds m ltac:(lia)) as [Hlo _].
  pose proof (Zdigits2_pos m ltac:(lia)).
  apply Z.lt_pred_le. apply (Z.pow_lt_mono_r_iff 2); [lia|lia|].
  replace (Z.pred (Zdigits2 m)) with (Zdigits2 m - 1) by lia. lia.
Qed.

(** What [nearest] returns is a value of the format, in the one form
    the format gives it. *)
Lemma nearest_valid (sign : bool) (n d : Z) :
  0 <= n -> 0 < d ->
  SpecFloat.valid_binary p emx (strconv.nearest p emx sign n d) = true.
Proof.
  intros Hn Hd. unfold strconv.nearest. cbv zeta.
  set (em := SpecFloat.emin p emx) in *.
  rewrite (Z.shiftl_mul_pow2 n (- em)) by lia.
  set (g := n * 2 ^ (- em)).
  assert (Hg : 0 <= g)
    by (unfold g; apply Z.mul_nonneg_nonneg; [lia | apply Z.pow_nonneg; lia]).
  pose proof (nearest_quotient g d Hg Hd) as Hquot. cbv zeta in Hquot.
  set (s := Z.max 0 (Zdigits2 (g / d) - p)) in *.
  assert (Hs : 0 <= s) by (unfold s; lia).
  rewrite (Z.shiftl_mul_pow2 d s) by lia.
  destruct Hquot as (Hqlt & Hfull & _).
  assert (Hps : 0 < 2 ^ s) by (apply Z.pow_pos_nonneg; lia).
  assert (Hd' : 0 < d * 2 ^ s) by lia.
  assert (Hp2 : 2 ^ p = 2 * 2 ^ (p - 1)).
  { replace p with (Z.succ (p - 1)) at 1 by lia. apply Z.pow_succ_r. lia. }
  assert (Hpp : 0 < 2 ^ (p - 1)) by (apply Z.pow_pos_nonneg; lia).
  assert (Hq : 0 <= g / (d * 2 ^ s)) by (apply Z.div_pos; lia).
  pose proof (round_even_spec g (d * 2 ^ s) Hd') as (Hmq & _).
  set (m := strconv.round_even g (d * 2 ^ s)) in *.
  assert (Hcanon : forall (mp : positive) (e : Z),
             e <= emx - p ->
             (Zdigits2 (Z.pos mp) = p /\ em <= e) \/
             (Zdigits2 (Z.pos mp) <= p /\ e = em) ->
             SpecFloat.valid_binary p emx (S754_finite sign mp e) = true).
  { intros mp e He Hdig. cbn [SpecFloat.valid_binary].
    unfold bounded, canonical_mantissa.
    apply andb_true_iff. split; [|apply Z.leb_le; exact He].
    apply Z.eqb_eq.
    change (Z.pos (digits2_pos mp)) with (Zdigits2 (Z.pos mp)).
    unfold fexp. fold em. lia. }
  destruct (Z.ltb_spec (emx - p) (em + s)) as [Hover|Hfit]; [reflexivity|].
  destruct (Z.eqb_spec m (2 ^ p)) as [Hm|Hm].
  - destruct (2 ^ (p - 1)) as [|mp|mp] eqn:Hmp; try lia.
    destruct (Z.leb_spec (em + s + 1) (emx - p)) as [Hfit'|]; [|reflexivity].
    apply Hcanon; [exact Hfit'|]. left. split; [|lia].
    rewrite <- Hmp. apply Zdigits2_unique; [|lia].
    split; [lia|]. rewrite Hp2. lia.
  - destruct m as [|mp|mp] eqn:Hmeq; [reflexivity| |reflexivity].
    destruct (Z.leb_spec (em + s) (emx - p)) as [_|]; [|lia].
    apply Hcanon; [exact Hfit|].
    destruct (Z.eq_dec s 0) as [Hs0|Hs0].
    + right. split; [|lia]. apply Zdigits2_le; lia.
    + left. split; [|lia]. specialize (Hfull ltac:(lia)).
      apply Zdigits2_unique; lia.
Qed.

End NearestFacts.

(** * Reading a decimal literal *)

Lemma append_cons (c : ascii) (s t : string) :
  (String c s ++ t)%string = String c (s ++ t)%string.
Proof. reflexivity. Qed.

Lemma append_nil (t : string) : (EmptyString ++ t)%string = t.
Proof. reflexivity. Qed.

Lemma digit_char_facts (d : Literal.digit) :
  strconv.is_digit (Literal.digit_char d) = true /\
  strconv.digit_val (Literal.digit_char d) = Literal.digit_value d /\
  Ascii.eqb (Literal.digit_char d) "_" = false /\
  Ascii.eqb (Literal.digit_char d) "." = false /\
  Ascii.eqb (Literal.digit_char d) "+" = false /\
  Ascii.eqb (Literal.digit_char d) "-" = false /\
  Ascii.eqb (Literal.digit_char d) "0" = (Literal.digit_value d =? 0) /\
  (strconv.lower (Literal.digit_char d) =? 120) = false /\
  0 <= Literal.digit_value d <= 9.
Proof. destruct d; vm_compute; repeat split; congruence. Qed.

Lemma number_from_app (acc : Z) (xs ys : list Literal.digit) :
  Literal.number_from acc (xs ++ ys)%list
  = Literal.number_from (Literal.number_from acc xs) ys.
Proof. unfold Literal.number_from. apply fold_left_app. Qed.

Lemma number_from_le (ds : list Literal.digit) :
  forall acc : Z, 0 <= acc -> acc <= Literal.number_from acc ds.
Proof.
  unfold Literal.number_from.
  induction ds as [|d r IH]; intros acc Hacc; cbn [fold_left]; [lia|].
  pose proof (digit_char_facts d) as (_ & _ & _ & _ & _ & _ & _ & _ & Hd).
  specialize (IH (10 * acc + Literal.digit_value d) ltac:(lia)). lia.
Qed.

(** The digits loop over a run of digits. *)
Lemma read_digits_digits (ds : list Literal.digit) :
  forall (rest : string) (a : strconv.mantissa),
    significant a ->
    exists a' : strconv.mantissa,
      strconv.read_digits false (Literal.digits_string ds ++ rest) a
      = strconv.read_digits false rest a' /\
      significant a' /\
      strconv.sawdot a' = strconv.sawdot a /\
      strconv.underscores a' = strconv.underscores a /\
      strconv.sawdigits a' = (strconv.sawdigits a || (0 <? length ds)%nat) /\
      strconv.mant a' = Literal.number_from (strconv.mant a) ds /\
      strconv.dp a' - strconv.nd a'
      = strconv.dp a - strconv.nd a - Z.of_nat (length ds).
Proof.
  induction ds as [|d r IH]; intros rest a Ha.
  - exists a. cbn [Literal.digits_string length Nat.ltb Nat.leb]; rewrite ?append_cons, ?append_nil.
    rewrite orb_false_r.
    split; [reflexivity|]. split; [exact Ha|].
    repeat (split; [reflexivity|]). change (Z.of_nat 0) with 0. lia.
  - pose proof (digit_char_facts d)
      as (Hdig & Hval & Hu & Hdot & _ & _ & Hzero & _ & Hrange).
    cbn [Literal.digits_string]; rewrite ?append_cons, ?append_nil.
    cbn [strconv.read_digits].
    rewrite Hu, Hdot, Hdig, Hzero, Hval.
    destruct Ha as (Hnd & Hnone & Hsome).
    destruct ((Literal.digit_value d =? 0) && (strconv.nd a =? 0)) eqn:Hlead.
    + apply andb_true_iff in Hlead as [Hd0 Hnd0].
      apply Z.eqb_eq in Hd0. apply Z.eqb_eq in Hnd0.
      match goal with
      | |- context [strconv.read_digits false _ ?a1] =>
          assert (Hsig0 : significant a1)
      end.
      { unfold significant. cbn [strconv.nd strconv.mant].
        split; [lia|]. split; [exact Hnone|exact Hsome]. }
      destruct (IH rest _ Hsig0) as (a' & Hread & Hsig & Hsd & Hus & Hdg & Hm & Hdp).
      exists a'. split; [exact Hread|].
      cbn [strconv.sawdot strconv.underscores strconv.sawdigits strconv.mant
           strconv.dp strconv.nd] in *.
      split; [exact Hsig|]. split; [exact Hsd|]. split; [exact Hus|].
      split; [rewrite Hdg, orb_true_r; reflexivity|].
      split.
      * rewrite Hm. cbn [Literal.number_from fold_left].
        rewrite (Hnone Hnd0), Hd0. reflexivity.
      * rewrite Hdp. cbn [length]. lia.
    + match goal with
      | |- context [strconv.read_digits false _ ?a1] =>
          assert (Hsig0 : significant a1)
      end.
      { unfold significant. cbn [strconv.nd strconv.mant].
        split; [lia|]. split; [lia|]. intros _.
        replace (strconv.nd a + 1 - 1) with (strconv.nd a) by lia.
        rewrite Z.pow_add_r by lia. change (10 ^ 1) with 10.
        destruct (Z.eq_dec (strconv.nd a) 0) as [Hz|Hnz].
        - rewrite Hz, (Hnone Hz). change (10 ^ 0) with 1.
          apply andb_false_iff in Hlead as [Hd0|Hn0].
          + apply Z.eqb_neq in Hd0. lia.
          + apply Z.eqb_neq in Hn0. lia.
        - specialize (Hsome ltac:(lia)).
          assert (Hpow : 10 ^ strconv.nd a = 10 * 10 ^ (strconv.nd a - 1)).
          { replace (strconv.nd a) with (Z.succ (strconv.nd a - 1)) at 1 by lia.
            apply Z.pow_succ_r. lia. }
          lia. }
      destruct (IH rest _ Hsig0) as (a' & Hread & Hsig & Hsd & Hus & Hdg & Hm & Hdp).
      exists a'. split; [exact Hread|].
      cbn [strconv.sawdot strconv.underscores strconv.sawdigits strconv.mant
           strconv.dp strconv.nd] in *.
      split; [exact Hsig|]. split; [exact Hsd|]. split; [exact Hus|].
      split; [rewrite Hdg, orb_true_r; reflexivity|].
      split.
      * rewrite Hm. cbn [Literal.number_from fold_left].
        replace (strconv.mant a * 10 + Literal.digit_value d)
          with (10 * strconv.mant a + Literal.digit_value d) by lia.
        reflexivity.
      * rewrite Hdp. cbn [length]. lia.
Qed.

(** The exponent loop over a run of digits that stays below 10000. *)
Lemma read_exp_digits (ds : list Literal.digit) :
  forall (e : Z) (under : bool),
    0 <= e -> Literal.number_from e ds < 10000 ->
    strconv.read_exp (Literal.digits_string ds) e under
    = (Literal.number_from e ds, under, EmptyString).
Proof.
  induction ds as [|d r IH]; intros e under He Hlt; [reflexivity|].
  pose proof (digit_char_facts d)
    as (Hdig & Hval & _ & _ & _ & _ & _ & _ & Hrange).
  cbn [Literal.digits_string strconv.read_exp]. rewrite Hdig, Hval.
  cbn [Literal.number_from fold_left] in Hlt |- *.
  pose proof (number_from_le r (10 * e + Literal.digit_value d) ltac:(lia)) as Hle.
  unfold Literal.number_from in Hle.
  destruct (Z.ltb_spec e 10000) as [_|]; [|lia].
  replace (e * 10 + Literal.digit_value d) with (10 * e + Literal.digit_value d)
    by lia.
  apply IH; [lia|exact Hlt].
Qed.

Lemma base_prefix_no_x (c0 c1 : ascii) (r : string) :
  (strconv.lower c1 =? 120) = false ->
  strconv.base_prefix (String c0 (String c1 r)) = (false, String c0 (String c1 r)).
Proof.
  intros Hx. unfold strconv.base_prefix. destruct r; [reflexivity|].
  rewrite Hx, andb_false_r. reflexivity.
Qed.

Lemma well_formed_digits (l : Literal.literal) :
  Literal.well_formed l = true ->
  (Literal.int_part l ++ Literal.fraction l)%list <> [] /\
  match Literal.exp_part l with
  | None => True
  | Some e =>
      Literal.edigits e <> [] /\ Literal.number (Literal.edigits e) < 10000
  end.
Proof.
  unfold Literal.well_formed. intros Hwf.
  apply andb_true_iff in Hwf as [Hdigits Hexp]. split.
  - intros Hnil. rewrite Hnil in Hdigits. discriminate.
  - destruct (Literal.exp_part l) as [e|]; [|exact I].
    apply andb_true_iff in Hexp as [Hne Hlt]. split.
    + intros Hnil. rewrite Hnil in Hne. discriminate.
    + apply Z.ltb_lt. exact Hlt.
Qed.

Lemma exponent_char (b : bool) :
  (strconv.lower (if b then "E" else "e")%char =? 101) = true /\
  (strconv.lower (if b then "E" else "e")%char =? 120) = false /\
  Ascii.eqb (if b then "E" else "e")%char "_" = false /\
  Ascii.eqb (if b then "E" else "e")%char "." = false /\
  strconv.is_digit (if b then "E" else "e")%char = false.
Proof. destruct b; vm_compute; repeat split; reflexivity. Qed.

(** A literal has no base prefix. *)
Lemma base_prefix_unsigned (l : Literal.literal) :
  Literal.well_formed l = true ->
  strconv.base_prefix (Literal.unsigned l) = (false, Literal.unsigned l).
Proof.
  intros Hwf. apply well_formed_digits in Hwf as [Hdigits _].
  unfold Literal.unsigned, Literal.fraction in *.
  destruct (Literal.int_part l) as [|d0 [|d1 r]].
  - destruct (Literal.frac_part l) as [[|f0 fr]|]; try (exfalso; apply Hdigits; reflexivity).
    cbn [Literal.digits_string Literal.fraction_string]; rewrite ?append_cons, ?append_nil.
    apply base_prefix_no_x. apply (digit_char_facts f0).
  - cbn [Literal.digits_string]; rewrite ?append_cons, ?append_nil.
    destruct (Literal.frac_part l) as [f|].
    + cbn [Literal.fraction_string]; rewrite ?append_cons, ?append_nil. apply base_prefix_no_x. reflexivity.
    + cbn [Literal.fraction_string]; rewrite ?append_cons, ?append_nil.
      destruct (Literal.exp_part l) as [e|]; [|reflexivity].
      cbn [Literal.exponent_string]. apply base_prefix_no_x.
      apply (exponent_char (Literal.upper e)).
  - cbn [Literal.digits_string]; rewrite ?append_cons, ?append_nil.
    apply base_prefix_no_x. apply (digit_char_facts d1).
Qed.

(** The digits loop stops in front of an exponent and at the end. *)
Lemma read_digits_exponent (e : option Literal.exponent) (a : strconv.mantissa) :
  strconv.read_digits false (Literal.exponent_string e) a
  = (a, Literal.exponent_string e).
Proof.
  destruct e as [e|]; [|reflexivity].
  cbn [Literal.exponent_string strconv.read_digits].
  destruct (exponent_char (Literal.upper e)) as (_ & _ & Hu & Hdot & Hdig).
  rewrite Hu, Hdot, Hdig. reflexivity.
Qed.

(** The mantissa of a literal, as the digits loop leaves it. *)
Lemma read_digits_unsigned (l : Literal.literal) :
  Literal.well_formed l = true ->
  exists a : strconv.mantissa,
    strconv.read_digits false (Literal.unsigned l)
      (strconv.mkMantissa false false false 0 0 0)
    = (a, Literal.exponent_string (Literal.exp_part l)) /\
    significant a /\
    strconv.sawdigits a = true /\
    strconv.underscores a = false /\
    strconv.mant a = Literal.number (Literal.int_part l ++ Literal.fraction l)%list /\
    (if strconv.sawdot a then strconv.dp a else strconv.nd a) - strconv.nd a
    = - Z.of_nat (length (Literal.fraction l)).
Proof.
  intros Hwf. apply well_formed_digits in Hwf as [Hdigits _].
  unfold Literal.unsigned.
  set (a0 := strconv.mkMantissa false false false 0 0 0).
  assert (Ha0 : significant a0) by (unfold significant; cbn; lia).
  destruct (read_digits_digits (Literal.int_part l)
              (Literal.fraction_string (Literal.frac_part l)
               ++ Literal.exponent_string (Literal.exp_part l)) a0 Ha0)
    as (a1 & Hread1 & Hsig1 & Hdot1 & Hus1 & Hdg1 & Hm1 & Hdp1).
  rewrite Hread1. clear Hread1.
  cbn [a0 strconv.sawdot strconv.underscores strconv.sawdigits strconv.mant
       strconv.dp strconv.nd orb] in *.
  unfold Literal.number. unfold Literal.fraction in *.
  destruct (Literal.frac_part l) as [f|].
  - cbn [Literal.fraction_string]; rewrite ?append_cons, ?append_nil.
    cbn [strconv.read_digits].
    change (Ascii.eqb "." "_") with false. change (Ascii.eqb "." ".") with true.
    cbv beta iota. rewrite Hdot1.
    match goal with
    | |- context [strconv.read_digits false _ ?a2] =>
        assert (Hsig2 : significant a2)
    end.
    { exact Hsig1. }
    destruct (read_digits_digits f
                (Literal.exponent_string (Literal.exp_part l)) _ Hsig2)
      as (a3 & Hread3 & Hsig3 & Hdot3 & Hus3 & Hdg3 & Hm3 & Hdp3).
    rewrite Hread3, read_digits_exponent. clear Hread3.
    cbn [strconv.sawdot strconv.underscores strconv.sawdigits strconv.mant
         strconv.dp strconv.nd] in *.
    exists a3. split; [reflexivity|]. split; [exact Hsig3|].
    split; [|split; [congruence|split]].
    + rewrite Hdg3, Hdg1.
      destruct (Literal.int_part l); [|reflexivity].
      destruct f; [exfalso; apply Hdigits; reflexivity|reflexivity].
    + rewrite Hm3, Hm1. symmetry. apply number_from_app.
    + rewrite Hdot3. lia.
  - cbn [Literal.fraction_string]; rewrite ?append_cons, ?append_nil. rewrite read_digits_exponent.
    exists a1. split; [reflexivity|]. split; [exact Hsig1|].
    split; [|split; [exact Hus1|split]].
    + rewrite Hdg1. rewrite app_nil_r in Hdigits.
      destruct (Literal.int_part l); [exfalso; apply Hdigits; reflexivity|reflexivity].
    + rewrite Hm1, app_nil_r. reflexivity.
    + rewrite Hdot1. cbn [length]. lia.
Qed.

(** What [readFloat] makes of a literal behind its sign: the digits as
    one integer and the power of ten that scales it. *)
Lemma read_unsigned_literal (s : string) (sign : bool) (l : Literal.literal) :
  Literal.well_formed l = true ->
  exists ndv : Z,
    strconv.read_unsigned s sign (Literal.unsigned l)
    = Some (strconv.mkDecimal sign false
              (Literal.number (Literal.int_part l ++ Literal.fraction l)%list)
              (Literal.scale l + ndv) (Literal.scale l),
            EmptyString) /\
    0 <= ndv /\
    (0 < Literal.number (Literal.int_part l ++ Literal.fraction l)%list ->
     10 ^ (ndv - 1) <= Literal.number (Literal.int_part l ++ Literal.fraction l)%list
     < 10 ^ ndv).
Proof.
  intros Hwf.
  destruct (read_digits_unsigned l Hwf)
    as (a & Hread & (Hnd & Hnone & Hsome) & Hdg & Hus & Hm & Hdp).
  pose proof (base_prefix_unsigned l Hwf) as Hbase.
  apply well_formed_digits in Hwf as [_ Hexp].
  exists (strconv.nd a). split; [|split; [exact Hnd|]].
  2:{ rewrite <- Hm. intros Hpos. apply Hsome.
      destruct (Z.eq_dec (strconv.nd a) 0) as [Hz|]; [|lia].
      rewrite (Hnone Hz) in Hpos. lia. }
  unfold strconv.read_unsigned. rewrite Hbase. cbv beta iota zeta.
  rewrite Hread. cbv beta iota zeta. rewrite Hdg, Hus. cbn [negb andb].
  unfold Literal.scale.
  set (dp0 := if strconv.sawdot a then strconv.dp a else strconv.nd a) in *.
  destruct (Literal.exp_part l) as [e|].
  - destruct Hexp as [Hne Hlt].
    cbn [Literal.exponent_string Literal.exponent_value].
    destruct (exponent_char (Literal.upper e)) as (He & _).
    rewrite He.
    destruct (Literal.edigits e) as [|d r] eqn:Hed; [exfalso; apply Hne; reflexivity|].
    pose proof (digit_char_facts d) as (Hdig & _ & _ & _ & Hplus & Hminus & _).
    pose proof (read_exp_digits (d :: r) 0 false ltac:(lia) Hlt) as Hre.
    cbn [Literal.digits_string] in Hre.
    destruct (Literal.esign e) as [[|]|];
      cbn [Literal.sign_string Literal.sign_value Literal.digits_string]; rewrite ?append_cons, ?append_nil.
    + change (Ascii.eqb "-" "+") with false. change (Ascii.eqb "-" "-") with true.
      cbv beta iota. rewrite Hdig, Hre. cbv beta iota.
      fold (Literal.number (d :: r)). rewrite Hm. cbn [andb].
      f_equal. f_equal. f_equal; lia.
    + change (Ascii.eqb "+" "+") with true.
      cbv beta iota. rewrite Hdig, Hre. cbv beta iota.
      fold (Literal.number (d :: r)). rewrite Hm. cbn [andb].
      f_equal. f_equal. f_equal; lia.
    + rewrite Hplus, Hminus.
      cbv beta iota. rewrite Hdig, Hre. cbv beta iota.
      fold (Literal.number (d :: r)). rewrite Hm. cbn [andb].
      f_equal. f_equal. f_equal; lia.
  - cbn [Literal.exponent_string Literal.exponent_value]. rewrite Hm.
    f_equal. f_equal. f_equal; lia.
Qed.

(** The first byte of a literal behind its sign: a digit or the point. *)
Lemma unsigned_head (l : Literal.literal) :
  Literal.well_formed l = true ->
  exists (c : ascii) (r : string),
    Literal.unsigned l = String c r /\
    Ascii.eqb c "+" = false /\ Ascii.eqb c "-" = false /\
    Ascii.eqb c "i" = false /\ Ascii.eqb c "I" = false /\
    Ascii.eqb c "n" = false /\ Ascii.eqb c "N" = false.
Proof.
  intros Hwf. apply well_formed_digits in Hwf as [Hdigits _].
  unfold Literal.unsigned, Literal.fraction in *.
  destruct (Literal.int_part l) as [|d0 r0].
  - destruct (Literal.frac_part l) as [f|]; [|exfalso; apply Hdigits; reflexivity].
    cbn [Literal.digits_string Literal.fraction_string]; rewrite ?append_cons, ?append_nil.
    eexists _, _. split; [reflexivity|]. repeat split; reflexivity.
  - cbn [Literal.digits_string]; rewrite ?append_cons, ?append_nil.
    eexists _, _. split; [reflexivity|].
    destruct d0; repeat split; reflexivity.
Qed.

Lemma commonPrefixLenIgnoreCase_head (c p : ascii) (r q : string) :
  (65 <=? N_of_ascii c)%N && (N_of_ascii c <=? 90)%N = false ->
  Ascii.eqb c p = false ->
  strconv.commonPrefixLenIgnoreCase (String c r) (String p q) = O.
Proof.
  intros Hcase Hne. cbn [strconv.commonPrefixLenIgnoreCase].
  cbv zeta. rewrite Hcase, Hne. reflexivity.
Qed.

(** A literal is none of the special spellings. *)
Lemma special_render (l : Literal.literal) :
  Literal.well_formed l = true ->
  strconv.special (Literal.render l) = None.
Proof.
  intros Hwf.
  destruct (unsigned_head l Hwf) as (c & r & Hhead & Hplus & Hminus & Hi & HI & Hn & HN).
  assert (Hupper : (65 <=? N_of_ascii c)%N && (N_of_ascii c <=? 90)%N = false).
  { revert Hhead. clear -Hwf. apply well_formed_digits in Hwf as [Hdigits _].
    unfold Literal.unsigned, Literal.fraction in *.
    destruct (Literal.int_part l) as [|d0 r0].
    - destruct (Literal.frac_part l) as [f|]; [|exfalso; apply Hdigits; reflexivity].
      cbn [Literal.digits_string Literal.fraction_string]; rewrite ?append_cons, ?append_nil.
      intros [= <- _]. reflexivity.
    - cbn [Literal.digits_string]; rewrite ?append_cons, ?append_nil. intros [= <- _].
      destruct d0; reflexivity. }
  assert (Hinf : forall sign k, strconv.infinity_prefix sign k (String c r) = None).
  { intros sign k. unfold strconv.infinity_prefix.
    rewrite (commonPrefixLenIgnoreCase_head c "i" r "nfinity" Hupper Hi).
    reflexivity. }
  unfold Literal.render.
  destruct (Literal.lsign l) as [[|]|]; cbn [Literal.sign_string]; rewrite ?append_cons, ?append_nil;
    rewrite Hhead; unfold strconv.special.
  - change (Ascii.eqb "-" "+") with false. change (Ascii.eqb "-" "-") with true.
    cbv beta iota. apply Hinf.
  - change (Ascii.eqb "+" "+") with true. cbv beta iota. apply Hinf.
  - rewrite Hplus, Hminus, Hi, HI, Hn, HN. reflexivity.
Qed.

(** [readFloat] on a literal. *)
Lemma readFloat_render (l : Literal.literal) :
  Literal.well_formed l = true ->
  exists ndv : Z,
    strconv.readFloat (Literal.render l)
    = Some (strconv.mkDecimal (Literal.negative l) false
              (Literal.number (Literal.int_part l ++ Literal.fraction l)%list)
              (Literal.scale l + ndv) (Literal.scale l),
            EmptyString) /\
    0 <= ndv /\
    (0 < Literal.number (Literal.int_part l ++ Literal.fraction l)%list ->
     10 ^ (ndv - 1) <= Literal.number (Literal.int_part l ++ Literal.fraction l)%list
     < 10 ^ ndv).
Proof.
  intros Hwf.
  destruct (unsigned_head l Hwf) as (c & r & Hhead & Hplus & Hminus & _).
  unfold Literal.render, Literal.negative.
  destruct (Literal.lsign l) as [[|]|]; cbn [Literal.sign_string]; rewrite ?append_cons, ?append_nil.
  - unfold strconv.readFloat.
    change (Ascii.eqb "-" "+") with false. change (Ascii.eqb "-" "-") with true.
    cbv beta iota. apply read_unsigned_literal. exact Hwf.
  - unfold strconv.readFloat.
    change (Ascii.eqb "+" "+") with true.
    cbv beta iota. apply read_unsigned_literal. exact Hwf.
  - unfold strconv.readFloat. rewrite Hhead, Hplus, Hminus. rewrite <- Hhead.
    apply read_unsigned_literal. exact Hwf.
Qed.

Lemma nearest_sign (p emx : Z) (sign : bool) (n d : Z) :
  Binary.sign_of (strconv.nearest p emx sign n d) = Some sign.
Proof.
  unfold strconv.nearest. cbv zeta.
  destruct (_ <? _); [reflexivity|].
  destruct (_ =? _).
  - destruct (2 ^ (p - 1)); try reflexivity. destruct (_ <=? _); reflexivity.
  - destruct (strconv.round_even _ _); try reflexivity.
    destruct (_ <=? _); reflexivity.
Qed.

Lemma number_nonneg (ds : list Literal.digit) : 0 <= Literal.number ds.
Proof. apply (number_from_le ds 0). lia. Qed.

Lemma denominator_pos (l : Literal.literal) : 0 < Literal.denominator l.
Proof.
  unfold Literal.denominator.
  destruct (Z.leb_spec 0 (Literal.scale l)); [lia|]. apply Z.pow_pos_nonneg; lia.
Qed.

Lemma numerator_nonneg (l : Literal.literal) : 0 <= Literal.numerator l.
Proof.
  unfold Literal.numerator. cbv zeta.
  pose proof (number_nonneg (Literal.int_part l ++ Literal.fraction l)%list).
  destruct (0 <=? Literal.scale l); [|assumption].
  apply Z.mul_nonneg_nonneg; [assumption|]. apply Z.pow_nonneg. lia.
Qed.

(** A literal whose first digit stands more than 310 places left of the
    point is past the largest binary32 value; one whose first digit
    stands more than 330 places right of it is below half the least. *)
Lemma far_left_overflows (n d : Z) :
  0 < d -> 10 ^ 310 * d <= n ->
  Binary.overflow_gap 24 128 d <= 2 * (n * 2 ^ (- SpecFloat.emin 24 128)).
Proof.
  intros Hd Hn. unfold Binary.overflow_gap.
  change (- SpecFloat.emin 24 128) with 149.
  change (128 - 24 - SpecFloat.emin 24 128) with 253.
  change (24 + 1) with 25.
  assert (Hk : (2 ^ 25 - 1) * 2 ^ 253 <= 2 * 2 ^ 149 * 10 ^ 310)
    by (vm_compute; discriminate).
  assert (H1 : (2 ^ 25 - 1) * 2 ^ 253 * d <= 2 * 2 ^ 149 * 10 ^ 310 * d)
    by (apply Z.mul_le_mono_nonneg_r; lia).
  assert (H2 : 2 * 2 ^ 149 * (10 ^ 310 * d) <= 2 * 2 ^ 149 * n)
    by (apply Z.mul_le_mono_nonneg_l; [vm_compute; discriminate|exact Hn]).
  lia.
Qed.

Lemma far_right_vanishes (n d : Z) :
  0 <= n -> n * 10 ^ 331 <= d ->
  2 * (n * 2 ^ (- SpecFloat.emin 24 128)) <= d.
Proof.
  intros Hn Hd. change (- SpecFloat.emin 24 128) with 149.
  assert (Hk : 2 * 2 ^ 149 <= 10 ^ 331) by (vm_compute; discriminate).
  assert (H1 : n * (2 * 2 ^ 149) <= n * 10 ^ 331)
    by (apply Z.mul_le_mono_nonneg_l; assumption).
  lia.
Qed.

(** Rounding what [readFloat] made of a literal gives the binary32
    value nearest to the number the literal stands for. *)
Lemma round_decimal_literal (l : Literal.literal) (sign : bool) (ndv : Z) :
  0 <= ndv ->
  (0 < Literal.number (Literal.int_part l ++ Literal.fraction l)%list ->
   10 ^ (ndv - 1) <= Literal.number (Literal.int_part l ++ Literal.fraction l)%list
   < 10 ^ ndv) ->
  let x := strconv.round_decimal 24 128
             (strconv.mkDecimal sign false
                (Literal.number (Literal.int_part l ++ Literal.fraction l)%list)
                (Literal.scale l + ndv) (Literal.scale l)) in
  Binary.nearest_even 24 128 (Literal.numerator l) (Literal.denominator l) x /\
  Binary.sign_of x = Some sign /\
  SpecFloat.valid_binary 24 128 x = true.
Proof.
  intros Hndv Hbounds x. subst x. unfold strconv.round_decimal.
  cbn [strconv.dmant strconv.dhex strconv.ddp strconv.dexp strconv.neg].
  pose proof (number_nonneg (Literal.int_part l ++ Literal.fraction l)%list) as HN.
  pose proof (denominator_pos l) as Hden.
  pose proof (numerator_nonneg l) as Hnum.
  unfold Literal.numerator, Literal.denominator in *. cbv zeta in *.
  set (N := Literal.number (Literal.int_part l ++ Literal.fraction l)%list) in *.
  set (sc := Literal.scale l) in *.
  destruct (Z.eqb_spec N 0) as [Hzero|Hne].
  - split; [|split; reflexivity]. cbn [Binary.nearest_even].
    rewrite Hzero. destruct (Z.leb_spec 0 sc); rewrite ?Z.mul_0_l; [lia|].
    pose proof (Z.pow_pos_nonneg 10 (- sc)). lia.
  - specialize (Hbounds ltac:(lia)).
    assert (Hnd1 : 0 < ndv).
    { destruct (Z.eq_dec ndv 0) as [Hz|]; [|lia].
      rewrite Hz in Hbounds. change (10 ^ 0) with 1 in Hbounds. lia. }
    destruct (Z.ltb_spec 310 (sc + ndv)) as [Hfar|Hnear].
    + split; [|split; reflexivity]. cbn [Binary.nearest_even].
      apply far_left_overflows; [exact Hden|].
      destruct (Z.leb_spec 0 sc) as [Hsc|Hsc].
      * rewrite Z.mul_1_r.
        assert (H1 : 10 ^ 310 <= 10 ^ (ndv - 1 + sc))
          by (apply Z.pow_le_mono_r; lia).
        rewrite Z.pow_add_r in H1 by lia.
        assert (H2 : 10 ^ (ndv - 1) * 10 ^ sc <= N * 10 ^ sc).
        { apply Z.mul_le_mono_nonneg_r; [apply Z.pow_nonneg; lia|lia]. }
        lia.
      * assert (H1 : 10 ^ 310 <= 10 ^ (ndv - 1 + sc))
          by (apply Z.pow_le_mono_r; lia).
        assert (H2 : 10 ^ (ndv - 1) = 10 ^ (ndv - 1 + sc) * 10 ^ (- sc)).
        { rewrite <- Z.pow_add_r by lia. f_equal. lia. }
        assert (H3 : 10 ^ 310 * 10 ^ (- sc) <= 10 ^ (ndv - 1 + sc) * 10 ^ (- sc)).
        { apply Z.mul_le_mono_nonneg_r; [apply Z.pow_nonneg; lia|exact H1]. }
        lia.
    + destruct (Z.ltb_spec (sc + ndv) (-330)) as [Hfar|Hnear'].
      * split; [|split; reflexivity]. cbn [Binary.nearest_even].
        destruct (Z.leb_spec 0 sc) as [Hsc|Hsc]; [lia|].
        apply far_right_vanishes; [lia|].
        assert (H1 : 10 ^ (- sc) = 10 ^ ndv * 10 ^ (- sc - ndv)).
        { rewrite <- Z.pow_add_r by lia. f_equal. lia. }
        assert (H2 : 10 ^ 331 <= 10 ^ (- sc - ndv))
          by (apply Z.pow_le_mono_r; lia).
        assert (H3 : N * 10 ^ 331 <= 10 ^ ndv * 10 ^ 331).
        { apply Z.mul_le_mono_nonneg_r; [vm_compute; discriminate|lia]. }
        assert (H4 : 10 ^ ndv * 10 ^ 331 <= 10 ^ ndv * 10 ^ (- sc - ndv)).
        { apply Z.mul_le_mono_nonneg_l; [apply Z.pow_nonneg; lia|exact H2]. }
        lia.
      * assert (Hp : 1 < 24) by lia.
        assert (Hem : SpecFloat.emin 24 128 <= 0) by (vm_compute; discriminate).
        assert (Hrange : SpecFloat.emin 24 128 <= 128 - 24)
          by (vm_compute; discriminate).
        destruct (0 <=? sc).
        -- split; [|split].
           ++ apply nearest_is_nearest_even; assumption || lia.
           ++ apply nearest_sign.
           ++ apply nearest_valid; assumption || lia.
        -- split; [|split].
           ++ apply nearest_is_nearest_even; assumption || lia.
           ++ apply nearest_sign.
           ++ apply nearest_valid; assumption || lia.
Qed.

(** ** [ParseFloat] on a literal *)

Lemma ParseFloat_literal (l : Literal.literal) :
  Literal.well_formed l = true ->
  exists x : spec_float,
    Binary.nearest_even 24 128 (Literal.numerator l) (Literal.denominator l) x /\
    Binary.sign_of x = Some (Literal.negative l) /\
    SpecFloat.valid_binary 24 128 x = true /\
    strconv.ParseFloat (Literal.render l) 32
    = (SF2Prim x,
       match x with S754_infinity _ => Some strconv.ErrRange | _ => None end).
Proof.
  intros Hwf.
  destruct (readFloat_render l Hwf) as (ndv & Hread & Hndv & Hbounds).
  destruct (round_decimal_literal l (Literal.negative l) ndv Hndv Hbounds)
    as (Hnear & Hsign & Hvalid).
  eexists. split; [exact Hnear|]. split; [exact Hsign|]. split; [exact Hvalid|].
  unfold strconv.ParseFloat. rewrite (special_render l Hwf), Hread.
  cbn [strconv.format Z.eqb Pos.eqb].
  destruct (strconv.round_decimal 24 128 _); reflexivity.
Qed.

(** * Whatever [ParseFloat] accepts at 32 bits *)

Lemma digit_val_nonneg (c : ascii) :
  strconv.is_digit c = true -> 0 <= strconv.digit_val c.
Proof.
  unfold strconv.is_digit, strconv.digit_val. intros Hd.
  apply andb_true_iff in Hd as [Hlo _]. apply Z.leb_le in Hlo. lia.
Qed.

Lemma hex_letter_val_nonneg (c : ascii) :
  strconv.is_hex_letter c = true -> 0 <= strconv.hex_letter_val c.
Proof.
  unfold strconv.is_hex_letter, strconv.hex_letter_val. intros Hd.
  apply andb_true_iff in Hd as [Hlo _]. apply Z.leb_le in Hlo. lia.
Qed.

Lemma read_digits_nonneg (hex : bool) (s : string) :
  forall (a a' : strconv.mantissa) (rest : string),
    0 <= strconv.mant a ->
    strconv.read_digits hex s a = (a', rest) ->
    0 <= strconv.mant a'.
Proof.
  induction s as [|c r IH]; intros a a' rest Ha Hread;
    cbn [strconv.read_digits] in Hread.
  - injection Hread as <- _. exact Ha.
  - destruct (Ascii.eqb c "_"); [refine (IH _ _ _ _ Hread); exact Ha|].
    destruct (Ascii.eqb c ".").
    + destruct (strconv.sawdot a); [injection Hread as <- _; exact Ha|].
      refine (IH _ _ _ _ Hread). exact Ha.
    + destruct (strconv.is_digit c) eqn:Hd.
      * destruct (Ascii.eqb c "0" && (strconv.nd a =? 0)).
        -- refine (IH _ _ _ _ Hread). exact Ha.
        -- refine (IH _ _ _ _ Hread). cbn [strconv.mant].
           pose proof (digit_val_nonneg c Hd). destruct hex; lia.
      * destruct (hex && strconv.is_hex_letter c) eqn:Hx.
        -- refine (IH _ _ _ _ Hread). cbn [strconv.mant].
           apply andb_true_iff in Hx as [_ Hx].
           pose proof (hex_letter_val_nonneg c Hx). lia.
        -- injection Hread as <- _. exact Ha.
Qed.

Lemma read_unsigned_nonneg (s s1 rest : string) (sign : bool) (d : strconv.decimal) :
  strconv.read_unsigned s sign s1 = Some (d, rest) -> 0 <= strconv.dmant d.
Proof.
  unfold strconv.read_unsigned. intros Hread.
  destruct (strconv.base_prefix s1) as [hex s2].
  destruct (strconv.read_digits hex s2 _) as [a s3] eqn:Hdigits.
  apply read_digits_nonneg in Hdigits; [|cbn; lia].
  repeat match type of Hread with
         | Some _ = Some _ => injection Hread as <- _; exact Hdigits
         | None = Some _ => discriminate
         | context [match ?x with _ => _ end] => destruct x
         end.
Qed.

Lemma readFloat_nonneg (s rest : string) (d : strconv.decimal) :
  strconv.readFloat s = Some (d, rest) -> 0 <= strconv.dmant d.
Proof.
  unfold strconv.readFloat. intros Hread.
  destruct s as [|c0 r0]; [discriminate|].
  destruct (Ascii.eqb c0 "+"); [exact (read_unsigned_nonneg _ _ _ _ _ Hread)|].
  destruct (Ascii.eqb c0 "-"); exact (read_unsigned_nonneg _ _ _ _ _ Hread).
Qed.

Lemma round_decimal_valid (d : strconv.decimal) :
  0 <= strconv.dmant d ->
  SpecFloat.valid_binary 24 128 (strconv.round_decimal 24 128 d) = true.
Proof.
  intros Hmant. unfold strconv.round_decimal.
  assert (Hp : 1 < 24) by lia.
  assert (Hem : SpecFloat.emin 24 128 <= 0) by (vm_compute; discriminate).
  assert (Hrange : SpecFloat.emin 24 128 <= 128 - 24) by (vm_compute; discriminate).
  destruct (Z.eqb_spec (strconv.dmant d) 0) as [|Hne]; [reflexivity|].
  destruct (strconv.dhex d).
  - destruct (Z.leb_spec 0 (strconv.dexp d)).
    + apply nearest_valid; try assumption; try lia.
      rewrite Z.shiftl_mul_pow2 by lia.
      apply Z.mul_nonneg_nonneg; [lia|]. apply Z.pow_nonneg. lia.
    + apply nearest_valid; try assumption.
      rewrite Z.shiftl_mul_pow2 by lia.
      pose proof (Z.pow_pos_nonneg 2 (- strconv.dexp d)). lia.
  - destruct (310 <? strconv.ddp d); [reflexivity|].
    destruct (strconv.ddp d <? -330); [reflexivity|].
    destruct (Z.leb_spec 0 (strconv.dexp d)).
    + apply nearest_valid;
        first [assumption | lia
              | apply Z.mul_nonneg_nonneg; [lia|]; apply Z.pow_nonneg; lia].
    + apply nearest_valid; try assumption.
      apply Z.pow_pos_nonneg; lia.
Qed.

Lemma special_valid (s : string) (v : spec_float) (n : nat) :
  strconv.special s = Some (v, n) -> SpecFloat.valid_binary 24 128 v = true.
Proof.
  unfold strconv.special, strconv.infinity_prefix. intros Hs.
  repeat match type of Hs with
         | Some _ = Some _ => injection Hs as <- _; reflexivity
         | None = Some _ => discriminate
         | context [match ?x with _ => _ end] => destruct x
         end.
Qed.

(** What [ParseFloat] returns at 32 bits without an error is a value of
    the 32-bit format, widened. *)
Lemma ParseFloat_32_is_binary32 (s : string) (v : float) :
  strconv.ParseFloat s 32 = (v, None) ->
  exists x : spec_float, SpecFloat.valid_binary 24 128 x = true /\ v = SF2Prim x.
Proof.
  unfold strconv.ParseFloat. intros Hparse.
  destruct (strconv.special s) as [[x n]|] eqn:Hspecial.
  - destruct (n =? String.length s)%nat; [|discriminate].
    injection Hparse as <-. exists x. split; [|reflexivity].
    apply (special_valid s x n Hspecial).
  - destruct (strconv.readFloat s) as [[d rest]|] eqn:Hread; [|discriminate].
    destruct rest; [|discriminate].
    cbn [strconv.format Z.eqb Pos.eqb] in Hparse.
    exists (strconv.round_decimal 24 128 d). split.
    + apply round_decimal_valid. apply (readFloat_nonneg s _ d Hread).
    + destruct (strconv.round_decimal 24 128 d); try discriminate;
        injection Hparse as <-; reflexivity.
Qed.

(** C10 (as amended): a rate that [newExchangeRate] accepts is the
    result of parsing its string at 32 bits: a value of the 32-bit
    binary format, widened to a [float64].  For a decimal literal that
    value is the binary32 value nearest to the number the literal
    stands for, ties to even, with the literal's sign, and a literal
    that rounds past the largest binary32 value is refused.  How much is
    lost depends on the number and not on the count of its digits: of
    the rate 1.003123142 of the tests 1.0031231641769409 is kept, not
    the nearest [float64], and rounding to ten digits gives 1.0031231642;
    and the one-digit rate 0.1 is kept as 0.10000000149011612. *)
Theorem newExchangeRate_keeps_the_nearest_binary32 :
  (forall (r : RawExchangeRate) (e : ExchangeRate),
      newExchangeRate r = inr e ->
      Currency e = RawCurrency r /\
      strconv.ParseFloat (RawRate r) 32 = (Rate e, None) /\
      exists x : spec_float,
        SpecFloat.valid_binary 24 128 x = true /\ Rate e = SF2Prim x) /\
  (forall (code : string) (l : Literal.literal),
      Literal.well_formed l = true ->
      exists x : spec_float,
        Binary.nearest_even 24 128 (Literal.numerator l) (Literal.denominator l) x /\
        Binary.sign_of x = Some (Literal.negative l) /\
        SpecFloat.valid_binary 24 128 x = true /\
        newExchangeRate {| RawCurrency := code; RawRate := Literal.render l |}
        = match x with
          | S754_infinity _ => inl (MalformedRate code (Literal.render l))
          | _ => inr {| Currency := code; Rate := SF2Prim x |}
          end) /\
  newExchangeRate {| RawCurrency := "USD"; RawRate := "1.003123142" |}
  = inr {| Currency := "USD"; Rate := 1.0031231641769409 |} /\
  fst (strconv.ParseFloat "1.003123142" 64) = 1.003123142%float /\
  @FloatToFixed amd64 1.0031231641769409 10 = 1.0031231642%float /\
  @FloatToFixed amd64 1.003123142 10 = 1.003123142%float /\
  newExchangeRate {| RawCurrency := "USD"; RawRate := "0.1" |}
  = inr {| Currency := "USD"; Rate := 0.10000000149011612 |} /\
  fst (strconv.ParseFloat "0.1" 64) = 0.1%float.
Proof.
  split; [|split].
  - intros r e Hnew. unfold newExchangeRate in Hnew.
    destruct (strconv.ParseFloat (RawRate r) 32) as [v [err|]] eqn:Hparse;
      [discriminate|].
    injection Hnew as <-. cbn [Currency Rate].
    split; [reflexivity|]. split; [reflexivity|].
    apply (ParseFloat_32_is_binary32 (RawRate r) v Hparse).
  - intros code l Hwf.
    destruct (ParseFloat_literal l Hwf) as (x & Hnear & Hsign & Hvalid & Hparse).
    exists x. split; [exact Hnear|]. split; [exact Hsign|]. split; [exact Hvalid|].
    unfold newExchangeRate. cbn [RawRate RawCurrency]. rewrite Hparse.
    destruct x; reflexivity.
  - vm_compute. repeat split; reflexivity.
Qed.

Lemma newExchangeRate_keeps_the_nearest_binary32_witness :
  exists x : spec_float,
    Binary.nearest_even 24 128 3211231231 10000000000 x /\
    Binary.sign_of x = Some false /\
    SpecFloat.valid_binary 24 128 x = true /\
    newExchangeRate {| RawCurrency := "PLN"; RawRate := "0.3211231231" |}
    = match x with
      | S754_infinity _ => inl (MalformedRate "PLN" "0.3211231231")
      | _ => inr {| Currency := "PLN"; Rate := SF2Prim x |}
      end.
Proof.
  exact (proj1 (proj2 newExchangeRate_keeps_the_nearest_binary32) "PLN"
           (Literal.mkLiteral None [Literal.D0]
              (Some [Literal.D3; Literal.D2; Literal.D1; Literal.D1; Literal.D2;
                     Literal.D3; Literal.D1; Literal.D2; Literal.D3; Literal.D1])
              None)
           eq_refl).
Defined.

(** C10 (as the spec words it): a rate of twenty-four significant
    digits of which nothing is lost: 1.00000011920928955078125 is
    [1 + 2^-23], a binary32 value, and is kept as it stands. *)
Lemma long_rate_kept_exactly :
  newExchangeRate {| RawCurrency := "USD"; RawRate := "1.00000011920928955078125" |}
  = inr {| Currency := "USD"; Rate := SF2Prim (S754_finite false 8388609 (-23)) |} /\
  Literal.render
    (Literal.mkLiteral None [Literal.D1]
       (Some [Literal.D0; Literal.D0; Literal.D0; Literal.D0; Literal.D0;
              Literal.D0; Literal.D1; Literal.D1; Literal.D9; Literal.D2;
              Literal.D0; Literal.D9; Literal.D2; Literal.D8; Literal.D9;
              Literal.D5; Literal.D5; Literal.D0; Literal.D7; Literal.D8;
              Literal.D1; Literal.D2; Literal.D5]) None)
  = "1.00000011920928955078125" /\
  Literal.numerator
    (Literal.mkLiteral None [Literal.D1]
       (Some [Literal.D0; Literal.D0; Literal.D0; Literal.D0; Literal.D0;
              Literal.D0; Literal.D1; Literal.D1; Literal.D9; Literal.D2;
              Literal.D0; Literal.D9; Literal.D2; Literal.D8; Literal.D9;
              Literal.D5; Literal.D5; Literal.D0; Literal.D7; Literal.D8;
              Literal.D1; Literal.D2; Literal.D5]) None) * 2 ^ 23
  = 8388609
    * Literal.denominator
        (Literal.mkLiteral None [Literal.D1]
           (Some [Literal.D0; Literal.D0; Literal.D0; Literal.D0; Literal.D0;
                  Literal.D0; Literal.D1; Literal.D1; Literal.D9; Literal.D2;
                  Literal.D0; Literal.D9; Literal.D2; Literal.D8; Literal.D9;
                  Literal.D5; Literal.D5; Literal.D0; Literal.D7; Literal.D8;
                  Literal.D1; Literal.D2; Literal.D5]) None) /\
  strconv.ParseFloat "1.00000011920928955078125" 64
  = (SF2Prim (S754_finite false 8388609 (-23)), None) /\
  @FloatToFixed amd64 (SF2Prim (S754_finite false 8388609 (-23))) 10
  = @FloatToFixed amd64 (fst (strconv.ParseFloat "1.00000011920928955078125" 64)) 10.
Proof. vm_compute. repeat split; reflexivity. Qed.

(* ===================================================================== *)
(** * Further properties of the client *)
(* ===================================================================== *)

(** ** Codes the day does not list *)

Lemma lastOf_absent (code : string) (dayData : ExchangeRates) :
  ~ In code (map Currency dayData) -> lastOf code dayData None = None.
Proof.
  unfold lastOf. induction dayData as [|r rest IH]; intros Habsent; [reflexivity|].
  cbn [fold_left map In] in *.
  destruct (String.eqb_spec code (Currency r)) as [Heq|Hne].
  - exfalso. apply Habsent. left. symmetry. exact Heq.
  - apply IH. intros Hin. apply Habsent. right. exact Hin.
Qed.

Lemma withEuro_fst_other (source target : string)
    (legs : option ExchangeRate * option ExchangeRate) :
  source <> EUCurr -> fst (withEuro source target legs) = fst legs.
Proof.
  intros Hs. destruct legs as [in_ to]. unfold withEuro.
  apply String.eqb_neq in Hs. rewrite Hs.
  destruct (false || String.eqb target EUCurr); reflexivity.
Qed.

Lemma withEuro_snd_other (source target : string)
    (legs : option ExchangeRate * option ExchangeRate) :
  target <> EUCurr -> snd (withEuro source target legs) = snd legs.
Proof.
  intros Ht. destruct legs as [in_ to]. unfold withEuro.
  apply String.eqb_neq in Ht. rewrite Ht.
  destruct (String.eqb source EUCurr || false); reflexivity.
Qed.

(** X1: with the day's list in hand, a source or target code that is
    neither EUR nor a code of the list makes [Convert] fail with
    [UnknownCurrency], which carries both codes, the codes of the list
    in order and the formatted date; this holds for every amount, the
    negative ones included. *)
Theorem Convert_unknown_currency `{Platform} (w : World) (s s1 : State)
    (amount : float) (source target : string) (t : time.Time)
    (dayData : ExchangeRates) :
  Fetch w s t = (s1, Returns dayData None) ->
  (source <> EUCurr /\ ~ In source (map Currency dayData))
  \/ (target <> EUCurr /\ ~ In target (map Currency dayData)) ->
  Convert w s amount source target t
  = (s1, Returns 0%float
           (Some (UnknownCurrency source target (map Currency dayData)
                                  (time.Format t)))).
Proof.
  intros HFetch Hunknown.
  rewrite (Convert_after_Fetch w s s1 amount source target t dayData HFetch).
  destruct (withEuro source target (scanLegs source target dayData))
    as [in_ to] eqn:Hlegs.
  assert (Hnone : in_ = None \/ to = None).
  { destruct Hunknown as [[Hs Habs]|[Ht Habs]].
    - left. change in_ with (fst (in_, to)). rewrite <- Hlegs.
      rewrite withEuro_fst_other by exact Hs.
      rewrite scanLegs_lastOf. apply lastOf_absent. exact Habs.
    - right. change to with (snd (in_, to)). rewrite <- Hlegs.
      rewrite withEuro_snd_other by exact Ht.
      rewrite scanLegs_lastOf. apply lastOf_absent. exact Habs. }
  destruct Hnone as [-> | ->]; [reflexivity|].
  destruct in_; reflexivity.
Qed.

Lemma Convert_unknown_currency_witness :
  snd (@Convert amd64 (Fixture.serving Fixture.testResponse) (start (New 4 0))
                (-10) "USD" "BLE" (Fixture.november 9))
  = Returns 0%float (Some (UnknownCurrency "USD" "BLE" ["USD"] "2016-11-09")).
Proof.
  refine (f_equal snd
            (@Convert_unknown_currency amd64 (Fixture.serving Fixture.testResponse)
               (start (New 4 0)) _ (-10) "USD" "BLE" (Fixture.november 9)
               [ {| Currency := "USD"; Rate := 3 |} ] _ _)).
  - vm_compute. reflexivity.
  - right. split; [discriminate|]. cbn. intros [Heq|[]]. discriminate.
Defined.

(** ** Duplicate codes in a day *)




